(** * Cortex dashboard: session controller and recalibration insight log

    A shallow embedding of the [App] component of the Cortex front end
    (the version with [handleRefine], [toggleColumn] and
    [handleTargetChange]) together with the ECMAScript number and string
    operations its handlers rely on: [parseFloat], binary64 subtraction,
    [Number.prototype.toFixed], and the string-to-number coercion behind
    [diff > 0]. *)

From Stdlib Require Import ZArith NArith PArith List Bool Lia Permutation.
From Stdlib Require Import Ascii String.
From Stdlib Require Import SpecFloat.
From Stdlib Require Import DecimalString DecimalN DecimalPos DecimalFacts.
Import ListNotations.

Local Open Scope Z_scope.

(** ** ECMAScript numbers: IEEE 754 binary64 *)

Module JS.

Definition number := spec_float.

Definition prec : Z := 53.
Definition emax : Z := 1024.

Definition NaN : number := S754_nan.
Definition zero : number := S754_zero false.

(** [a - b] on Numbers. *)
Definition sub (a b : number) : number := SFsub prec emax a b.

(** [a < b] and [a > b] on Numbers; any comparison with NaN is false. *)
Definition ltb (a b : number) : bool := SFltb a b.
Definition gtb (a b : number) : bool := SFltb b a.

Definition is_finite (x : number) : bool :=
  match x with
  | S754_zero _ | S754_finite _ _ _ => true
  | _ => false
  end.

(** *** Decimal digit strings *)

Definition is_digit (c : ascii) : bool :=
  let n := nat_of_ascii c in (48 <=? n)%nat && (n <=? 57)%nat.

Definition digit_uint (c : ascii) (d : Decimal.uint) : Decimal.uint :=
  match c with
  | "0" => Decimal.D0 d | "1" => Decimal.D1 d | "2" => Decimal.D2 d
  | "3" => Decimal.D3 d | "4" => Decimal.D4 d | "5" => Decimal.D5 d
  | "6" => Decimal.D6 d | "7" => Decimal.D7 d | "8" => Decimal.D8 d
  | "9" => Decimal.D9 d | _ => d
  end%char.

(** The digits of a numeral, most significant first. *)
Fixpoint uint_of_digits (cs : list ascii) : Decimal.uint :=
  match cs with
  | [] => Decimal.Nil
  | c :: cs' => digit_uint c (uint_of_digits cs')
  end.

(** The mathematical value of a run of decimal digits. *)
Definition digits_value (cs : list ascii) : N := N.of_uint (uint_of_digits cs).

(** The decimal numeral of a natural number, ["0"] for zero. *)
Definition decimal_string (n : N) : string :=
  NilZero.string_of_uint (N.to_uint n).

(** Splits off the longest prefix of decimal digits. *)
Fixpoint span_digits (cs : list ascii) : list ascii * list ascii :=
  match cs with
  | c :: cs' =>
      if is_digit c
      then let '(ds, rest) := span_digits cs' in (c :: ds, rest)
      else ([], cs)
  | [] => ([], [])
  end.

(** *** From a decimal numeral to the nearest Number

    The Number value of [(-1)^neg * D * 10^E]: the quotient of the
    integers [D * 10^max(E,0)] and [10^max(-E,0)], rounded once to
    nearest, ties to even, by the division of [SpecFloat]. *)
Definition of_decimal (neg : bool) (D : N) (E : Z) : number :=
  match D with
  | N0 => S754_zero neg
  | Npos d =>
      SFdiv prec emax
        (S754_finite neg (d * Z.to_pos (10 ^ Z.max E 0)) 0)
        (S754_finite false (Z.to_pos (10 ^ Z.max (- E) 0)) 0)
  end.

(** *** [Number.prototype.toFixed] with one fraction digit *)

(** [10^21 <= m * 2^e], decided on the exact value. *)
Definition mag_ge_1e21 (m : positive) (e : Z) : bool :=
  if e <? 0 then 10 ^ 21 * 2 ^ (- e) <=? Zpos m
  else 10 ^ 21 <=? Zpos m * 2 ^ e.

(** The integer [n] for which [n / 10 - m * 2^e] is as close to zero as
    possible, the larger one when there are two. *)
Definition tenths (m : positive) (e : Z) : N :=
  Z.to_N (if e <? 0 then (20 * Zpos m + 2 ^ (- e)) / 2 ^ (1 - e)
          else 10 * Zpos m * 2 ^ e).

(** Fixed notation for [n / 10]: the digits of [n], left-padded with
    zeros to two characters, with a point before the last one. *)
Definition fixed1 (n : N) : list ascii :=
  let m := list_ascii_of_string (decimal_string n) in
  let m := (repeat "0"%char (2 - List.length m) ++ m)%list in
  let k := List.length m in
  (firstn (k - 1) m ++ "."%char :: skipn (k - 1) m)%list.

(** Rounding an integer to the nearest Number. *)
Definition of_integer (X : Z) : number := binary_normalize prec emax X 0 false.

(** The number of decimal digits of a positive integer. *)
Definition decimal_size (X : Z) : Z :=
  Z.of_nat (List.length (list_ascii_of_string (decimal_string (Z.to_N X)))).

(** [Number::toString] on an integer value [X >= 10^21]: the shortest
    digit string [s] of length [k] with [s * 10^(n-k)] rounding back to
    [X], closest to [X] and even on ties, in exponential notation. *)
Fixpoint shortest_digits (fuel : nat) (k : Z) (X n : Z) : Z * Z :=
  match fuel with
  | O => (X, n)
  | S fuel' =>
      let p := 10 ^ (n - k) in
      let lo := X / p in
      let hi := lo + 1 in
      let ok_lo := SFeqb (of_integer (lo * p)) (of_integer X) in
      let ok_hi := SFeqb (of_integer (hi * p)) (of_integer X) in
      let pick :=
        if ok_lo && ok_hi then
          match Z.compare (X - lo * p) (hi * p - X) with
          | Lt => Some lo
          | Gt => Some hi
          | Eq => Some (if Z.even lo then lo else hi)
          end
        else if ok_lo then Some lo
        else if ok_hi then Some hi
        else None in
      match pick with
      | Some s => if s =? 10 ^ k then (s / 10, n + 1) else (s, n)
      | None => shortest_digits fuel' (k + 1) X n
      end
  end.

Definition toString_large (X : Z) : list ascii :=
  let '(s, n) := shortest_digits 21 1 X (decimal_size X) in
  let ds := list_ascii_of_string (decimal_string (Z.to_N s)) in
  let ex := list_ascii_of_string (decimal_string (Z.to_N (n - 1))) in
  match ds with
  | [d] => d :: "e"%char :: "+"%char :: ex
  | d :: ds' => (d :: "."%char :: ds' ++ "e"%char :: "+"%char :: ex)%list
  | [] => []
  end.

(** [x.toFixed(1)].  A binary64 value of magnitude [10^21] or more has
    a nonnegative exponent, so the shift yields its exact integer
    value. *)
Definition toFixed1 (x : number) : string :=
  match x with
  | S754_nan => "NaN"
  | S754_infinity false => "Infinity"
  | S754_infinity true => "-Infinity"
  | S754_zero _ => string_of_list_ascii (fixed1 0)
  | S754_finite s m e =>
      ((if s then "-" else EmptyString) ++
       string_of_list_ascii
         (if mag_ge_1e21 m e then toString_large (Z.shiftl (Zpos m) e)
          else fixed1 (tenths m e)))%string
  end.

(** *** Reading a [StrDecimalLiteral] *)

Definition is_space (c : ascii) : bool :=
  let n := nat_of_ascii c in ((9 <=? n) && (n <=? 13) || (n =? 32))%nat.

Fixpoint skip_spaces (cs : list ascii) : list ascii :=
  match cs with
  | c :: cs' => if is_space c then skip_spaces cs' else cs
  | [] => []
  end.

Definition trim (cs : list ascii) : list ascii :=
  rev (skip_spaces (rev (skip_spaces cs))).

Fixpoint strip_prefix (p cs : list ascii) : option (list ascii) :=
  match p, cs with
  | [], _ => Some cs
  | a :: p', c :: cs' => if Ascii.eqb a c then strip_prefix p' cs' else None
  | _ :: _, [] => None
  end.

(** An optional [ExponentPart]; without digits after the [e] there is
    none and nothing is consumed. *)
Definition scan_exponent (cs : list ascii) : Z * list ascii :=
  let after_e :=
    match strip_prefix ["e"%char] cs with
    | Some r => Some r
    | None => strip_prefix ["E"%char] cs
    end in
  match after_e with
  | Some r =>
      let '(neg, r1) :=
        match strip_prefix ["+"%char] r with
        | Some r' => (false, r')
        | None =>
            match strip_prefix ["-"%char] r with
            | Some r' => (true, r')
            | None => (false, r)
            end
        end in
      let '(ds, r2) := span_digits r1 in
      match ds with
      | [] => (0, cs)
      | _ :: _ =>
          let v := Z.of_N (digits_value ds) in
          (if neg then - v else v, r2)
      end
  | None => (0, cs)
  end.

(** The longest [StrUnsignedDecimalLiteral] at the head of [cs] and what
    follows it. *)
Definition scan_unsigned (neg : bool) (cs : list ascii)
  : option (number * list ascii) :=
  match strip_prefix (list_ascii_of_string "Infinity") cs with
  | Some r => Some (S754_infinity neg, r)
  | None =>
      let '(ip, r1) := span_digits cs in
      match strip_prefix ["."%char] r1 with
      | Some r2 =>
          let '(fp, r3) := span_digits r2 in
          match (ip ++ fp)%list with
          | [] => None
          | _ :: _ =>
              let '(ex, r4) := scan_exponent r3 in
              Some (of_decimal neg (digits_value (ip ++ fp)%list)
                      (ex - Z.of_nat (List.length fp)), r4)
          end
      | None =>
          match ip with
          | [] => None
          | _ :: _ =>
              let '(ex, r4) := scan_exponent r1 in
              Some (of_decimal neg (digits_value ip) ex, r4)
          end
      end
  end.

Definition scan_signed (cs : list ascii) : option (number * list ascii) :=
  match strip_prefix ["+"%char] cs with
  | Some r => scan_unsigned false r
  | None =>
      match strip_prefix ["-"%char] cs with
      | Some r => scan_unsigned true r
      | None => scan_unsigned false cs
      end
  end.

(** [parseFloat] on a string: leading white space is skipped and the
    longest decimal literal at the head is read; [NaN] without one. *)
Definition parseFloat_string (s : string) : number :=
  match scan_signed (skip_spaces (list_ascii_of_string s)) with
  | Some (v, _) => v
  | None => NaN
  end.

(** [StringToNumber] on decimal literals: the whole trimmed string has
    to be one; the empty string is [+0]. *)
Definition StringToNumber (s : string) : number :=
  match trim (list_ascii_of_string s) with
  | [] => zero
  | cs =>
      match scan_signed cs with
      | Some (v, []) => v
      | _ => NaN
      end
  end.

(** *** Values found in a JSON response

    What the [accuracy] field of a response is read as: absent, null, a
    number or a string. *)

Inductive value :=
| Undefined
| Null
| Num (x : number)
| Str (s : string).

Definition truthy (v : value) : bool :=
  match v with
  | Undefined | Null => false
  | Num (S754_zero _) | Num S754_nan => false
  | Num _ => true
  | Str s => negb (String.eqb s EmptyString)
  end.

(** [v || d]. *)
Definition or_else (v d : value) : value := if truthy v then v else d.

(** [parseFloat(v)]: the argument is first converted to a string.  The
    string of a Number reads back as the same Number, except that [-0]
    prints as ["0"]; [undefined] and [null] print as words. *)
Definition parseFloat (v : value) : number :=
  match v with
  | Undefined | Null => NaN
  | Num (S754_zero _) => zero
  | Num x => x
  | Str s => parseFloat_string s
  end.

End JS.

Local Open Scope string_scope.

(** ** The session state of [App] *)

(** An uploaded file is an opaque handle; it is identified by its name. *)
Definition File := string.

Record ColumnDiagnostic := {
  value : string;
  label : string
}.

Record Stats := {
  accuracy : JS.value;
  target_used : string
}.

Record Analysis := {
  column_diagnostics : list ColumnDiagnostic
}.

(** The body of a response of the [/heal] endpoint. *)
Record Report := {
  stats : Stats;
  analysis : Analysis
}.

(** An entry of the intelligence log. *)
Record Insight := {
  id : Z;
  trend : string;
  diff : string;
  timestamp : string;
  message : string
}.

(** The [useState] cells of [App]. *)
Record Session := {
  loading : bool;
  report : option Report;
  file : option File;
  selectedCols : list string;
  selectedTarget : option string;
  insights : list Insight;
  openDropdown : option string
}.

Definition initial : Session := {|
  loading := false;
  report := None;
  file := None;
  selectedCols := [];
  selectedTarget := None;
  insights := [];
  openDropdown := None
|}.

Definition setLoading (b : bool) (s : Session) : Session :=
  {| loading := b; report := report s; file := file s;
     selectedCols := selectedCols s; selectedTarget := selectedTarget s;
     insights := insights s; openDropdown := openDropdown s |}.

Definition setReport (r : option Report) (s : Session) : Session :=
  {| loading := loading s; report := r; file := file s;
     selectedCols := selectedCols s; selectedTarget := selectedTarget s;
     insights := insights s; openDropdown := openDropdown s |}.

Definition setFile (f : option File) (s : Session) : Session :=
  {| loading := loading s; report := report s; file := f;
     selectedCols := selectedCols s; selectedTarget := selectedTarget s;
     insights := insights s; openDropdown := openDropdown s |}.

Definition setSelectedCols (f : list string -> list string) (s : Session)
  : Session :=
  {| loading := loading s; report := report s; file := file s;
     selectedCols := f (selectedCols s); selectedTarget := selectedTarget s;
     insights := insights s; openDropdown := openDropdown s |}.

Definition setSelectedTarget (t : option string) (s : Session) : Session :=
  {| loading := loading s; report := report s; file := file s;
     selectedCols := selectedCols s; selectedTarget := t;
     insights := insights s; openDropdown := openDropdown s |}.

Definition setInsights (f : list Insight -> list Insight) (s : Session)
  : Session :=
  {| loading := loading s; report := report s; file := file s;
     selectedCols := selectedCols s; selectedTarget := selectedTarget s;
     insights := f (insights s); openDropdown := openDropdown s |}.

Definition setOpenDropdown (d : option string) (s : Session) : Session :=
  {| loading := loading s; report := report s; file := file s;
     selectedCols := selectedCols s; selectedTarget := selectedTarget s;
     insights := insights s; openDropdown := d |}.

(** ** What a handler exchanges with its environment *)

(** The multipart form posted to [/heal]. *)
Record Request := {
  form_file : File;
  form_selected_columns : list string;
  form_target_column : option string
}.

(** [Date.now()] and the formatted local time read when a log entry is
    built. *)
Record Clock := {
  now : Z;
  timeString : string
}.

(** [!selectedTarget]: an unset target and the empty string are falsy. *)
Definition no_target (t : option string) : bool :=
  match t with
  | None => true
  | Some x => String.eqb x EmptyString
  end.

(** [arr.includes(x)] on an array of strings. *)
Definition includes (x : string) (arr : list string) : bool :=
  existsb (String.eqb x) arr.

(** [arr.filter(c => c !== x)]. *)
Definition without (x : string) (arr : list string) : list string :=
  filter (fun c => negb (String.eqb c x)) arr.

(** An integer inside a template literal. *)
Definition show_int (z : Z) : string := NilZero.string_of_int (Z.to_int z).

(** ** Initial file upload: [processFile] *)

Definition baseline (clk : Clock) : Insight := {|
  id := now clk;
  trend := "STABLE";
  diff := "INIT";
  timestamp := timeString clk;
  message := "Neural baseline established. Data vectors initialized and healed."
|}.

(** Up to the [await]: nothing happens without a file; otherwise the
    file is stored, [loading] is raised and the form is posted with an
    empty column selection. *)
Definition processFile_begin (uploadedFile : option File) (s : Session)
  : Session * option Request :=
  match uploadedFile with
  | None => (s, None)
  | Some f =>
      (setLoading true (setFile (Some f) s),
       Some {| form_file := f;
               form_selected_columns := [];
               form_target_column := None |})
  end.

(** *** What the [await] gives back

    The request is rejected, or it resolves with a body.  The handlers
    read [stats] and [analysis.column_diagnostics] of the body, and a
    read that fails throws inside the [try].  A body is [Complete] when
    both can be read; [WithoutStats] when the diagnostics can be read
    but [stats] is missing, so that [res.data.stats.target_used] and
    [res.data.stats.accuracy] throw; [Falsy] when it is empty ([null],
    the empty text), so that the first read throws.  Bodies whose
    diagnostics cannot be read as a list have no value here, as they
    have none in [Report]. *)
Inductive Body :=
| Complete (data : Report)
| WithoutStats (body_analysis : Analysis)
| Falsy.

Inductive Outcome :=
| Resolved (body : Body)
| Rejected.

(** The two common outcomes: a complete body, or a rejection. *)
Definition of_option (o : option Report) : Outcome :=
  match o with
  | Some data => Resolved (Complete data)
  | None => Rejected
  end.

#[warning="-uniform-inheritance"] Coercion of_option : option >-> Outcome.

(** A body without [stats], as the state holds it after
    [setReport(res.data)]: [report?.stats?.accuracy] is [undefined].
    [target_used] is only ever read from the response (lines 36 and 38),
    never from the state; the empty string stands in for it. *)
Definition held_without_stats (a : Analysis) : Report := {|
  stats := {| accuracy := JS.Undefined; target_used := EmptyString |};
  analysis := a
|}.

(** After the [await].  The second component is the text of the alert,
    if any.  With a complete body the [try] block runs through.  With a
    body that resolves but cannot be read, [setReport(res.data)] has
    run when the read throws: without [stats] the filter callback
    throws at the first diagnosed column, or, there being no column,
    [setSelectedCols([])] runs and the read of the target throws; the
    [catch] alerts and [finally] lowers [loading].  A rejected request
    goes to the [catch] at once. *)
Definition processFile_settle (outcome : Outcome) (clk : Clock)
  (s : Session) : Session * option string :=
  match outcome with
  | Resolved (Complete data) =>
      let allCols :=
        without (target_used (stats data))
          (map value (column_diagnostics (analysis data))) in
      (setLoading false
         (setInsights (fun _ => [baseline clk])
            (setSelectedTarget (Some (target_used (stats data)))
               (setSelectedCols (fun _ => allCols)
                  (setReport (Some data) s)))),
       None)
  | Resolved (WithoutStats a) =>
      let s1 := setReport (Some (held_without_stats a)) s in
      (setLoading false
         (match column_diagnostics a with
          | [] => setSelectedCols (fun _ => []) s1
          | _ :: _ => s1
          end),
       Some "Analysis failed.")
  | Resolved Falsy =>
      (setLoading false (setReport None s), Some "Analysis failed.")
  | Rejected => (setLoading false s, Some "Analysis failed.")
  end.

(** ** Recalibration: [handleRefine] *)

(** [report?.stats?.accuracy]. *)
Definition accuracy_of (r : option Report) : JS.value :=
  match r with
  | Some r => accuracy (stats r)
  | None => JS.Undefined
  end.

(** [parseFloat(report?.stats?.accuracy || 0)]. *)
Definition prevAccuracy_of (r : option Report) : JS.number :=
  JS.parseFloat (JS.or_else (accuracy_of r) (JS.Num JS.zero)).

(** [diff > 0] and [diff < 0], where [diff] is the string returned by
    [toFixed]: the string is converted to a Number first. *)
Definition positive_diff (diff : string) : bool :=
  JS.gtb (JS.StringToNumber diff) JS.zero.

Definition negative_diff (diff : string) : bool :=
  JS.ltb (JS.StringToNumber diff) JS.zero.

(** The entry synthesized after a successful recalibration (the body of
    the [try] block up to [newEntry]). *)
Definition newEntry (prevAccuracy newAccuracy : JS.number)
  (totalColsCount activeColsCount : Z) (clk : Clock) : Insight :=
  let diff := JS.toFixed1 (JS.sub newAccuracy prevAccuracy) in
  let trend :=
    if positive_diff diff then "OPTIMIZED"
    else if negative_diff diff then "DEGRADED"
    else "STABLE" in
  let prunedCount := totalColsCount - activeColsCount in
  let dynamicMessage :=
    if positive_diff diff then
      "Optimization successful. Pruning " ++ show_int prunedCount ++
      " noisy vectors enhanced the focus on primary predictors."
    else if negative_diff diff then
      "Intelligence degradation detected. Removing features has limited the model's ability to map patterns in the data space."
    else
      "Model weights recalculated. System remains stable with the current feature set." in
  {| id := now clk;
     trend := trend;
     diff := if positive_diff diff then "+" ++ diff ++ "%" else diff ++ "%";
     timestamp := timeString clk;
     message := dynamicMessage |}.

(** Up to the [await]: the guard on [file] and [selectedTarget], then
    [loading] is raised and the form is posted. *)
Definition handleRefine_begin (s : Session) : Session * option Request :=
  match file s with
  | Some f =>
      if no_target (selectedTarget s) then (s, None)
      else
        (setLoading true s,
         Some {| form_file := f;
                 form_selected_columns := selectedCols s;
                 form_target_column := selectedTarget s |})
  | None => (s, None)
  end.

(** After the [await].  [closure] is the state the handler was called
    in: [report], [selectedCols] and [prevAccuracy] are read from it,
    while the log is updated from its current value.  Reading
    [res.data.stats.accuracy] on a body without [stats], or
    [report.analysis] on an absent report, throws inside the [try] and
    lands in the [catch], as a rejected request does. *)
Definition handleRefine_settle (closure : Session) (outcome : Outcome)
  (clk : Clock) (s : Session) : Session * option string :=
  match outcome with
  | Resolved (Complete data) =>
      let prevAccuracy := prevAccuracy_of (report closure) in
      let newAccuracy := JS.parseFloat (accuracy (stats data)) in
      match report closure with
      | Some r =>
          let totalColsCount :=
            Z.of_nat (List.length (column_diagnostics (analysis r))) in
          let activeColsCount :=
            Z.of_nat (List.length (selectedCols closure)) in
          let entry :=
            newEntry prevAccuracy newAccuracy totalColsCount activeColsCount
              clk in
          (setLoading false
             (setReport (Some data)
                (setInsights (fun prev => firstn 5 (entry :: prev)) s)),
           None)
      | None => (setLoading false s, Some "Refining failed.")
      end
  | Resolved (WithoutStats _) | Resolved Falsy | Rejected =>
      (setLoading false s, Some "Refining failed.")
  end.

(** ** Local handlers *)

Definition toggleColumn (colValue : string) (s : Session) : Session :=
  setSelectedCols
    (fun prev =>
       if includes colValue prev then without colValue prev
       else prev ++ [colValue])%list
    s.

Definition handleTargetChange (newTarget : string) (s : Session) : Session :=
  setOpenDropdown None
    (setSelectedCols (without newTarget)
       (setSelectedTarget (Some newTarget) s)).

Definition toggleDropdown (name : string) (s : Session) : Session :=
  setOpenDropdown
    (match openDropdown s with
     | Some d => if String.eqb d name then None else Some name
     | None => Some name
     end)
    s.

(** ** The event loop

    A handler runs to its [await] in one go; the request it posted then
    stays in flight until the transport settles it, and other handlers
    may run in between. *)

Inductive Pending :=
| AwaitUpload
| AwaitRefine (closure : Session).

Record World := {
  session : Session;
  inflight : list Pending;
  outbox : list Request;
  alerts : list string
}.

Definition boot : World := {|
  session := initial;
  inflight := [];
  outbox := [];
  alerts := []
|}.

Inductive Event :=
| UploadFile (uploadedFile : option File)
| ToggleColumn (colValue : string)
| ChangeTarget (newTarget : string)
| ToggleDropdown (name : string)
| RequestRecalibration
| Settle (i : nat) (outcome : Outcome) (clk : Clock).

Definition local (f : Session -> Session) (w : World) : World :=
  {| session := f (session w); inflight := inflight w;
     outbox := outbox w; alerts := alerts w |}.

Definition launch (p : Pending) (r : Session * option Request) (w : World)
  : World :=
  match r with
  | (s, Some req) =>
      {| session := s; inflight := (inflight w ++ [p])%list;
         outbox := (outbox w ++ [req])%list; alerts := alerts w |}
  | (s, None) =>
      {| session := s; inflight := inflight w;
         outbox := outbox w; alerts := alerts w |}
  end.

Definition remove_nth {A} (i : nat) (l : list A) : list A :=
  (firstn i l ++ skipn (S i) l)%list.

Definition land (i : nat) (r : Session * option string) (w : World) : World :=
  {| session := fst r; inflight := remove_nth i (inflight w);
     outbox := outbox w;
     alerts := match snd r with
               | Some a => (alerts w ++ [a])%list
               | None => alerts w
               end |}.

Definition step (w : World) (ev : Event) : World :=
  match ev with
  | UploadFile f => launch AwaitUpload (processFile_begin f (session w)) w
  | ToggleColumn c => local (toggleColumn c) w
  | ChangeTarget t => local (handleTargetChange t) w
  | ToggleDropdown n => local (toggleDropdown n) w
  | RequestRecalibration =>
      launch (AwaitRefine (session w)) (handleRefine_begin (session w)) w
  | Settle i outcome clk =>
      match nth_error (inflight w) i with
      | Some AwaitUpload =>
          land i (processFile_settle outcome clk (session w)) w
      | Some (AwaitRefine closure) =>
          land i (handleRefine_settle closure outcome clk (session w)) w
      | None => w
      end
  end.

Definition run (evs : list Event) : World := fold_left step evs boot.

(** What the rendered page lets the user trigger: the drop zone is shown
    only while there is neither a spinner nor a report; the target
    picker, the feature picker, the recalibration button and the
    importance panel are shown exactly when a report is held, spinner or
    not.  Settlements come from the transport. *)
Definition rendered (s : Session) (ev : Event) : bool :=
  match ev with
  | UploadFile _ =>
      negb (loading s) && match report s with None => true | Some _ => false end
  | ToggleColumn _ | ChangeTarget _ | ToggleDropdown _ | RequestRecalibration =>
      match report s with Some _ => true | None => false end
  | Settle _ _ _ => true
  end.

Definition step_ui (w : World) (ev : Event) : World :=
  if rendered (session w) ev then step w ev else w.

Definition run_ui (evs : list Event) : World := fold_left step_ui evs boot.

(** A handler and the settlement of its request with nothing in
    between: the final state, the requests posted and the alert shown. *)
Definition processFile (uploadedFile : option File) (outcome : Outcome)
  (clk : Clock) (s : Session) : Session * list Request * option string :=
  match processFile_begin uploadedFile s with
  | (s1, Some req) =>
      let '(s2, a) := processFile_settle outcome clk s1 in (s2, [req], a)
  | (s1, None) => (s1, [], None)
  end.

Definition handleRefine (outcome : Outcome) (clk : Clock) (s : Session)
  : Session * list Request * option string :=
  match handleRefine_begin s with
  | (s1, Some req) =>
      let '(s2, a) := handleRefine_settle s outcome clk s1 in (s2, [req], a)
  | (s1, None) => (s1, [], None)
  end.

(** ** Sample data *)

Definition col (v : string) : ColumnDiagnostic := {| value := v; label := v |}.

Definition sample_report (acc : JS.value) : Report := {|
  stats := {| accuracy := acc; target_used := "churn" |};
  analysis := {| column_diagnostics := [col "age"; col "plan"; col "churn"] |}
|}.

Definition noon : Clock := {| now := 1700000000000; timeString := "12:00 PM" |}.

(** ** Predicates and sample states used in the statements *)

(** The guard of [handleRefine]: the call is dropped exactly when no file
    is held or no target is selected. *)
Definition refine_rejected (s : Session) : bool :=
  match file s with
  | None => true
  | Some _ => no_target (selectedTarget s)
  end.

(** A session in which a recalibration is already in flight. *)
Definition busy_world : World :=
  run [UploadFile (Some "data.csv");
       Settle 0 (Some (sample_report (JS.Str "82.0%"))) noon;
       RequestRecalibration].

(** The session right after a first successful upload. *)
Definition ready_world : World :=
  run [UploadFile (Some "data.csv");
       Settle 0 (Some (sample_report (JS.Str "82.0%"))) noon].

(** The selected target is not among the selected feature columns. *)
Definition target_excluded (s : Session) : Prop :=
  forall t, selectedTarget s = Some t -> ~ In t (selectedCols s).

(** An event other than a toggle of the column that is the current
    target. *)
Definition spares_target (s : Session) (ev : Event) : Prop :=
  forall c, ev = ToggleColumn c -> selectedTarget s <> Some c.

(** The entry [handleRefine] builds when the request it posted from
    [closure] (holding report [r]) resolves with [data]. *)
Definition refine_entry (closure : Session) (r : Report) (data : Report)
  (clk : Clock) : Insight :=
  newEntry (prevAccuracy_of (Some r))
    (JS.parseFloat (accuracy (stats data)))
    (Z.of_nat (List.length (column_diagnostics (analysis r))))
    (Z.of_nat (List.length (selectedCols closure)))
    clk.

(** A log that already holds five entries, around a ready session. *)
Definition full_log : list Insight :=
  [baseline noon; baseline noon; baseline noon; baseline noon;
   {| id := 0; trend := "STABLE"; diff := "INIT"; timestamp := "11:00 AM";
      message := "oldest" |}].

Definition full_session : Session :=
  setInsights (fun _ => full_log) (session ready_world).

(** A response with four diagnosed columns. *)
Definition wide_report (acc : JS.value) : Report := {|
  stats := {| accuracy := acc; target_used := "churn" |};
  analysis :=
    {| column_diagnostics := [col "age"; col "plan"; col "city"; col "churn"] |}
|}.

(** A finite Number below [10^21] in magnitude: the range in which
    [toFixed] answers in fixed notation. *)
Definition fixed_range (x : JS.number) : bool :=
  match x with
  | S754_zero _ => true
  | S754_finite _ m e => negb (JS.mag_ge_1e21 m e)
  | _ => false
  end.

(** [x] rounded to one decimal place, counted in tenths: the nearest
    integer to [10 * x], halves away from zero. *)
Definition rounded_tenths (x : JS.number) : Z :=
  match x with
  | S754_finite s m e =>
      if s then - Z.of_N (JS.tenths m e) else Z.of_N (JS.tenths m e)
  | _ => 0
  end.

(** [n / 10] is a decimal with one fraction digit nearest to
    [m * 2^e], that is [|n / 10 - m * 2^e| <= 1 / 20], over the
    integers. *)
Definition nearest_tenth (m : positive) (e : Z) (n : Z) : Prop :=
  if (e <? 0)%Z
  then (Z.abs (20 * Zpos m - 2 * n * 2 ^ (- e)) <= 2 ^ (- e))%Z
  else n = (10 * Zpos m * 2 ^ e)%Z.

Definition is_negative (x : JS.number) : bool :=
  match x with
  | S754_finite s _ _ => s
  | _ => false
  end.

(** The substitution the specification describes for the insight
    computation: zero in place of an accuracy that is missing or does
    not read as a finite Number. *)
Definition zero_if_not_finite (v : JS.value) : JS.number :=
  let x := JS.parseFloat v in
  if JS.is_finite x then x else JS.zero.

(** The sign of [x] rounded to one decimal place, none for NaN. *)
Definition diff_sign (x : JS.number) : option comparison :=
  match x with
  | S754_nan => None
  | S754_zero _ => Some Eq
  | S754_infinity s => Some (if s then Lt else Gt)
  | S754_finite _ _ _ => Some (rounded_tenths x ?= 0)%Z
  end.

(** [diff == 0] on the string returned by [toFixed]. *)
Definition zero_diff (diff : string) : bool :=
  SFeqb (JS.StringToNumber diff) JS.zero.

(** ** The components [App] renders *)

(** *** The intelligence log panel ([CortexInsights]) *)

Inductive Icon := TrendingUp | TrendingDown | Minus.

(** The three guarded icons in front of an entry. *)
Definition trendIcons (trend : string) : list Icon :=
  ((if String.eqb trend "OPTIMIZED" then [TrendingUp] else []) ++
   (if String.eqb trend "DEGRADED" then [TrendingDown] else []) ++
   (if String.eqb trend "STABLE" then [Minus] else []))%list.

(** The colour class of the badge. *)
Definition trendColor (trend : string) : string :=
  if String.eqb trend "OPTIMIZED" then "text-emerald-400"
  else if String.eqb trend "DEGRADED" then "text-red-400"
  else "text-zinc-400".

Record LogRow := {
  row_icons : list Icon;
  row_color : string;
  row_badge : string;
  row_timestamp : string;
  row_message : string
}.

(** The panel: a placeholder for an empty log, else one row per entry,
    whose badge reads [{log.trend} {log.diff}]. *)
Inductive LogPanel :=
| WaitingForCalibration
| LogRows (rows : list LogRow).

Definition logRow (log : Insight) : LogRow := {|
  row_icons := trendIcons (trend log);
  row_color := trendColor (trend log);
  row_badge := trend log ++ " " ++ diff log;
  row_timestamp := timestamp log;
  row_message := message log
|}.

Definition CortexInsights (logs : list Insight) : LogPanel :=
  match logs with
  | [] => WaitingForCalibration
  | _ :: _ => LogRows (map logRow logs)
  end.

(** *** The target picker ([TargetSelector]) *)

(** [selectedTarget || "Select Target Column"]. *)
Definition targetLabel (selectedTarget : option string) : string :=
  if no_target selectedTarget then "Select Target Column"
  else match selectedTarget with
       | Some t => t
       | None => "Select Target Column"
       end.

(** [selectedTarget === col.value]. *)
Definition isSelected (selectedTarget : option string) (c : ColumnDiagnostic)
  : bool :=
  match selectedTarget with
  | Some t => String.eqb t (value c)
  | None => false
  end.

(** *** The feature picker ([ColumnSelector]) *)

(** [haystack.includes(needle)] on strings: [needle] occurs at some
    position of [haystack]. *)
Fixpoint string_includes (needle haystack : string) : bool :=
  String.prefix needle haystack ||
  match haystack with
  | EmptyString => false
  | String _ rest => string_includes needle rest
  end.

Section ColumnSelector.

(** [String.prototype.toLowerCase], taken as given. *)
Variable toLowerCase : string -> string.

(** The rows listed for a search text; nothing without diagnostics. *)
Definition displayList (diagnostics : option (list ColumnDiagnostic))
  (search : string) : list ColumnDiagnostic :=
  match diagnostics with
  | None => []
  | Some ds =>
      filter
        (fun c => string_includes (toLowerCase search) (toLowerCase (label c)))
        ds
  end.

End ColumnSelector.

(** [selectedColumns.includes(col.value)]: the row is ticked. *)
Definition isActive (selectedColumns : list string) (c : ColumnDiagnostic)
  : bool :=
  includes (value c) selectedColumns.

(** Lower case on the letters A to Z, every other character kept. *)
Definition ascii_lower (c : ascii) : ascii :=
  let n := nat_of_ascii c in
  if ((65 <=? n) && (n <=? 90))%nat then ascii_of_nat (n + 32) else c.

Fixpoint lower_ascii (s : string) : string :=
  match s with
  | EmptyString => EmptyString
  | String c rest => String (ascii_lower c) (lower_ascii rest)
  end.

(** *** The statistics cards ([StatCard]) *)

Definition js_mul (a b : JS.number) : JS.number := SFmul JS.prec JS.emax a b.
Definition js_leb (a b : JS.number) : bool := SFleb a b.
Definition one : JS.number := JS.of_integer 1.
Definition hundred : JS.number := JS.of_integer 100.

(** What the card shows for [value]: a number not above 1 is shown as a
    percentage with one decimal, anything else as it is. *)
Definition StatCard (v : JS.value) : JS.value :=
  match v with
  | JS.Num x =>
      if js_leb x one then JS.Str (JS.toFixed1 (js_mul x hundred) ++ "%")
      else v
  | _ => v
  end.

(** The "Model Precision" card:
    [value={report?.stats?.accuracy || "N/A"}]. *)
Definition precisionCard (r : option Report) : JS.value :=
  StatCard (JS.or_else (accuracy_of r) (JS.Str "N/A")).

(** *** The anomaly chart ([DataHealthChart]) *)

(** A string as ECMAScript has it: its sequence of UTF-16 code units.
    [length] and [substring] count code units, so a character outside
    the basic plane counts for two. *)
Definition utf16 := list N.

(** The code units of a text of ASCII characters. *)
Definition units (s : string) : utf16 :=
  map N_of_ascii (list_ascii_of_string s).

(** The two halves of a surrogate pair. *)
Definition high_surrogate (u : N) : bool :=
  ((55296 <=? u) && (u <=? 56319))%N.

Definition low_surrogate (u : N) : bool :=
  ((56320 <=? u) && (u <=? 57343))%N.

(** Well-formed UTF-16: every first half is followed by a second half,
    and no second half stands alone. *)
Fixpoint well_formed (s : utf16) : bool :=
  match s with
  | [] => true
  | u :: rest =>
      if high_surrogate u then
        match rest with
        | v :: rest' => low_surrogate v && well_formed rest'
        | [] => false
        end
      else negb (low_surrogate u) && well_formed rest
  end.

(** [name.length > 10 ? name.substring(0, 8) + '..' : name]. *)
Definition shortName (name : utf16) : utf16 :=
  if (10 <? List.length name)%nat then (firstn 8 name ++ units "..")%list
  else name.

(** A name of twelve units whose eighth and ninth are the two halves of
    one character outside the basic plane. *)
Definition astral_name : utf16 :=
  (units "revenue" ++ [55357; 56496] ++ units "eur")%list%N.

(** *** The preview table ([DataTable]) *)

(** A row record: its own keys, in enumeration order, with their
    values. *)
Definition Row := list (string * JS.value).

(** The own property of a row under a key, if it has one. *)
Fixpoint own (row : Row) (col : string) : option JS.value :=
  match row with
  | [] => None
  | (k, v) :: rest => if String.eqb k col then Some v else own rest col
  end.

(** The properties every row inherits from [Object.prototype]. *)
Definition prototype_keys : list string :=
  ["constructor"; "hasOwnProperty"; "isPrototypeOf"; "propertyIsEnumerable";
   "toLocaleString"; "toString"; "valueOf"; "__proto__";
   "__defineGetter__"; "__defineSetter__"; "__lookupGetter__";
   "__lookupSetter__"].

Definition inherited (col : string) : bool := includes col prototype_keys.

(** What [row[col]] evaluates to: the own property, else the member of
    [Object.prototype] of that name, else [undefined]. *)
Inductive Member :=
| Own (v : JS.value)
| Inherited (name : string)
| Missing.

Definition field (row : Row) (col : string) : Member :=
  match own row col with
  | Some v => Own v
  | None => if inherited col then Inherited col else Missing
  end.

(** A cell, [row[col]?.toString() || dash]: the dash for a missing or
    null field and for the empty string; any other value is shown, a
    number through its own text, which is never empty, and an inherited
    member through the text of the function or object it is, which is
    never empty either. *)
Inductive Cell :=
| Dash
| Shown (v : JS.value)
| ShownInherited (name : string).

Definition cell (row : Row) (col : string) : Cell :=
  match field row col with
  | Missing | Own JS.Undefined | Own JS.Null => Dash
  | Own (JS.Str s) =>
      if String.eqb s EmptyString then Dash else Shown (JS.Str s)
  | Own (JS.Num x) => Shown (JS.Num x)
  | Inherited name => ShownInherited name
  end.

Record Table := {
  header : list string;
  body : list (list Cell)
}.

(** Nothing without rows; else the keys of the first row head the
    columns and every row is laid out along them. *)
Definition DataTable (rows : option (list Row)) : option Table :=
  match rows with
  | None | Some [] => None
  | Some (first :: rest) =>
      let columns := map fst first in
      Some {| header := columns;
              body := map (fun row => map (cell row) columns) (first :: rest) |}
  end.

(** ** Traces *)

(** The file of the last upload that carried one. *)
Definition last_upload (evs : list Event) : option File :=
  fold_left
    (fun acc ev =>
       match ev with
       | UploadFile (Some f) => Some f
       | _ => acc
       end)
    evs None.

(** The column identifiers of a response are pairwise distinct. *)
Definition unique_columns (data : Report) : Prop :=
  NoDup (map value (column_diagnostics (analysis data))).

(** Every response in the trace has pairwise distinct column
    identifiers. *)
Definition unique_responses (evs : list Event) : Prop :=
  forall i data clk, In (Settle i (Some data) clk) evs -> unique_columns data.

Definition known_trend (t : string) : Prop :=
  t = "OPTIMIZED" \/ t = "DEGRADED" \/ t = "STABLE".

(** Every response in the trace that resolves has a complete body. *)
Definition complete_responses (evs : list Event) : Prop :=
  forall i body clk,
    In (Settle i (Resolved body) clk) evs -> exists data, body = Complete data.

(** The report held is a body that came without [stats]. *)
Definition unread_body (s : Session) : Prop :=
  exists a, report s = Some (held_without_stats a).

(** What is pending implies what is held: any request in flight was
    posted with a file, and a report is only ever installed by the
    settlement of a request. *)
Definition held_with_file (w : World) : Prop :=
  (inflight w <> [] -> file (session w) <> None) /\
  (report (session w) <> None -> file (session w) <> None).

(** As long as no target is set, no recalibration has been posted and
    nothing has been logged; and under an empty log the report, if any,
    is a body without [stats]. *)
Definition untargeted (w : World) : Prop :=
  (selectedTarget (session w) = None ->
   insights (session w) = [] /\
   forall c, ~ In (AwaitRefine c) (inflight w)) /\
  (insights (session w) = [] ->
   report (session w) = None \/ unread_body (session w)).

(** Before a report: nothing but the upload itself has happened, and at
    most one upload is in flight, with the spinner on exactly then. *)
Definition pristine_until_report (w : World) : Prop :=
  report (session w) = None ->
  selectedTarget (session w) = None /\
  selectedCols (session w) = [] /\
  insights (session w) = [] /\
  openDropdown (session w) = None /\
  ((inflight w = [] /\ loading (session w) = false) \/
   (inflight w = [AwaitUpload] /\ loading (session w) = true)).

(** Once a report is held, only recalibrations are in flight. *)
Definition refines_only (w : World) : Prop :=
  report (session w) <> None ->
  forall p, In p (inflight w) -> exists c, p = AwaitRefine c.

(** What holds of every world reached through the page. *)
Definition on_page (w : World) : Prop :=
  pristine_until_report w /\ refines_only w.

(** The two forms the page posts: the upload form, with no column and
    no target, and the recalibration form, with a target that is not
    the empty string. *)
Definition upload_form (req : Request) : Prop :=
  form_selected_columns req = [] /\ form_target_column req = None.

Definition refine_form (req : Request) : Prop :=
  exists t, form_target_column req = Some t /\ t <> EmptyString.

(** Bookkeeping of requests and alerts. *)
Definition requests_accounted (w : World) : Prop :=
  Forall (fun req => upload_form req \/ refine_form req) (outbox w) /\
  Forall (fun a => a = "Analysis failed." \/ a = "Refining failed.")
    (alerts w) /\
  (List.length (alerts w) + List.length (inflight w)
   <= List.length (outbox w))%nat.

(** An entry written by a recalibration: its label ends with a percent
    sign. *)
Definition recalibration_entry (e : Insight) : Prop :=
  exists body, diff e = body ++ "%".

(** The log, newest first: recalibration entries, then at most one
    baseline, which is the oldest entry. *)
Definition entries_then_baseline (log : list Insight) : Prop :=
  exists entries tail,
    log = (entries ++ tail)%list /\
    Forall recalibration_entry entries /\
    (List.length log <= 5)%nat /\
    (tail = [] \/ exists clk, tail = [baseline clk]).

(** The same, with the baseline missing only from an empty log or from
    one that five recalibration entries fill. *)
Definition baseline_last (log : list Insight) : Prop :=
  exists entries tail,
    log = (entries ++ tail)%list /\
    Forall recalibration_entry entries /\
    (List.length log <= 5)%nat /\
    ((exists clk, tail = [baseline clk]) \/
     (tail = [] /\ (entries = [] \/ List.length entries = 5%nat))).

(** The shape of the log, together with what keeps it: the log is empty
    exactly without a report, and a recalibration posted with a report
    settles in a session that still has one. *)
Definition log_shape (w : World) : Prop :=
  baseline_last (insights (session w)) /\
  (report (session w) = None <-> insights (session w) = []) /\
  (forall c, In (AwaitRefine c) (inflight w) -> report c <> None ->
             report (session w) <> None).
Local Open Scope list_scope.
Local Open Scope Z_scope.

(** ** Rounding to binary64 keeps the sign *)

Lemma digits2_pos_size (p : positive) : digits2_pos p = Pos.size p.
Proof. induction p; simpl; congruence. Qed.

Lemma Zdigits2_log2 (m : Z) : 0 < m -> Zdigits2 m = Z.log2 m + 1.
Proof.
  destruct m as [|p|p]; try lia. intros _. simpl.
  rewrite digits2_pos_size. destruct p; simpl; lia.
Qed.

Lemma Zdigits2_mono (a b : Z) : 0 < a -> a <= b -> Zdigits2 a <= Zdigits2 b.
Proof.
  intros Ha Hab. rewrite !Zdigits2_log2 by lia.
  pose proof (Z.log2_le_mono a b Hab). lia.
Qed.

Lemma Zdigits2_lower (m k : Z) : 0 <= k -> 2 ^ k <= m -> k + 1 <= Zdigits2 m.
Proof.
  intros Hk Hm.
  assert (Hpos : 0 < m) by (pose proof (Z.pow_pos_nonneg 2 k); lia).
  rewrite Zdigits2_log2 by exact Hpos.
  pose proof (Z.log2_le_mono _ _ Hm) as Hlog.
  rewrite Z.log2_pow2 in Hlog by lia. lia.
Qed.

Lemma shr_1_m (r : shr_record) :
  0 <= shr_m r -> shr_m (shr_1 r) = Z.shiftr (shr_m r) 1.
Proof.
  destruct r as [m b s]. simpl. intros Hm.
  destruct m as [|p|p]; try lia; [reflexivity|].
  destruct p; reflexivity.
Qed.

Lemma iter_shr_1_m (p : positive) (r : shr_record) :
  0 <= shr_m r -> shr_m (iter_pos shr_1 p r) = Z.shiftr (shr_m r) (Zpos p).
Proof.
  revert r. induction p as [p IH|p IH|]; intros r Hr; simpl iter_pos.
  - assert (H1 : 0 <= shr_m (shr_1 r)).
    { rewrite shr_1_m by assumption. now apply Z.shiftr_nonneg. }
    assert (H2 : 0 <= shr_m (iter_pos shr_1 p (shr_1 r))).
    { rewrite IH by assumption. now apply Z.shiftr_nonneg. }
    rewrite IH, IH, shr_1_m by assumption.
    rewrite !Z.shiftr_shiftr by lia. f_equal. lia.
  - assert (H2 : 0 <= shr_m (iter_pos shr_1 p r)).
    { rewrite IH by assumption. now apply Z.shiftr_nonneg. }
    rewrite IH, IH by assumption.
    rewrite !Z.shiftr_shiftr by lia. f_equal. lia.
  - now apply shr_1_m.
Qed.

Lemma shr_record_of_loc_m (m : Z) (l : location) :
  shr_m (shr_record_of_loc m l) = m.
Proof. destruct l as [|[]]; reflexivity. Qed.

(** In the normal range a shift to the target exponent leaves a positive
    mantissa and does not lower the magnitude's binary order. *)
Lemma shr_fexp_pos (m e : Z) (l : location) :
  0 < m -> emin JS.prec JS.emax <= Zdigits2 m + e - JS.prec ->
  let '(r, e') := shr_fexp JS.prec JS.emax m e l in
  0 < shr_m r /\ Zdigits2 m + e <= Zdigits2 (shr_m r) + e'.
Proof.
  intros Hm Hrange. unfold shr_fexp, shr, fexp.
  rewrite Z.max_l by lia.
  destruct (Zdigits2 m + e - JS.prec - e) as [|n|n] eqn:Hn.
  - rewrite shr_record_of_loc_m. lia.
  - rewrite iter_shr_1_m by (rewrite shr_record_of_loc_m; lia).
    rewrite shr_record_of_loc_m.
    rewrite Zdigits2_log2 in Hn by assumption.
    rewrite (Zdigits2_log2 m) by assumption.
    assert (Hlog : Z.log2 (Z.shiftr m (Zpos n)) = Z.log2 m - Zpos n).
    { rewrite Z.log2_shiftr by assumption. unfold JS.prec in Hn. lia. }
    assert (Hpos : 0 < Z.shiftr m (Zpos n)).
    { rewrite Z.shiftr_div_pow2 by lia.
      pose proof (Z.log2_spec m Hm) as [Hlo _].
      assert (2 ^ Zpos n <= m).
      { eapply Z.le_trans; [|exact Hlo]. apply Z.pow_le_mono_r; [lia|].
        unfold JS.prec in Hn. lia. }
      apply Z.div_str_pos. split; [apply Z.pow_pos_nonneg; lia | assumption]. }
    split; [assumption|]. rewrite Zdigits2_log2 by assumption. lia.
  - rewrite shr_record_of_loc_m. lia.
Qed.

Lemma round_nearest_even_ge (m : Z) (l : location) : m <= round_nearest_even m l.
Proof. destruct l as [|[]]; simpl; try lia. destruct (Z.even m); lia. Qed.

(** Rounding a positive mantissa in the normal range never yields zero or
    NaN: the result is finite or infinite, with the sign asked for. *)
Lemma binary_round_aux_pos (sx : bool) (mx ex : Z) (lx : location) :
  0 < mx -> emin JS.prec JS.emax <= Zdigits2 mx + ex - JS.prec ->
  (exists m e, binary_round_aux JS.prec JS.emax sx mx ex lx = S754_finite sx m e) \/
  binary_round_aux JS.prec JS.emax sx mx ex lx = S754_infinity sx.
Proof.
  intros Hm Hrange. unfold binary_round_aux.
  pose proof (shr_fexp_pos mx ex lx Hm Hrange) as H1.
  destruct (shr_fexp JS.prec JS.emax mx ex lx) as [r1 e1].
  destruct H1 as [Hr1 Hd1].
  set (m2 := round_nearest_even (shr_m r1) (loc_of_shr_record r1)).
  assert (Hm2 : shr_m r1 <= m2) by apply round_nearest_even_ge.
  assert (Hd2 : Zdigits2 (shr_m r1) <= Zdigits2 m2)
    by (apply Zdigits2_mono; lia).
  assert (H2 := shr_fexp_pos m2 e1 loc_Exact ltac:(lia) ltac:(lia)).
  destruct (shr_fexp JS.prec JS.emax m2 e1 loc_Exact) as [r2 e2].
  destruct H2 as [Hr2 _].
  destruct (shr_m r2) as [|p|p]; try lia.
  destruct (e2 <=? JS.emax - JS.prec); [left; eauto | right; reflexivity].
Qed.

(** The quotient of two positive integers, the divisor below 16, is a
    nonzero Number of the sign asked for. *)
Lemma SFdiv_small_divisor_sign (neg : bool) (a b : positive) :
  Zdigits2 (Zpos b) <= 4 ->
  (exists m e,
     SFdiv JS.prec JS.emax (S754_finite neg a 0) (S754_finite false b 0) =
     S754_finite neg m e) \/
  SFdiv JS.prec JS.emax (S754_finite neg a 0) (S754_finite false b 0) =
  S754_infinity neg.
Proof.
  intros Hb. unfold SFdiv.
  destruct (SFdiv_core_binary JS.prec JS.emax (Zpos a) 0 (Zpos b) 0)
    as [[q e'] lz] eqn:Hcore.
  rewrite Bool.xorb_false_r.
  unfold SFdiv_core_binary in Hcore.
  set (d1 := Zdigits2 (Zpos a)) in *.
  set (d2 := Zdigits2 (Zpos b)) in *.
  assert (Hd1 : 1 <= d1).
  { unfold d1. rewrite Zdigits2_log2 by lia.
    pose proof (Z.log2_nonneg (Zpos a)). lia. }
  assert (Hd2 : 1 <= d2).
  { unfold d2. rewrite Zdigits2_log2 by lia.
    pose proof (Z.log2_nonneg (Zpos b)). lia. }
  assert (Ha : 2 ^ (d1 - 1) <= Zpos a).
  { unfold d1. rewrite Zdigits2_log2 by lia.
    replace (Z.log2 (Zpos a) + 1 - 1) with (Z.log2 (Zpos a)) by lia.
    apply Z.log2_spec. lia. }
  assert (Hblt : Zpos b < 2 ^ d2).
  { unfold d2. rewrite Zdigits2_log2 by lia.
    apply Z.log2_spec. lia. }
  unfold fexp, emin, JS.prec, JS.emax in Hcore.
  replace (Z.max (d1 + 0 - (d2 + 0) - 53) (3 - 1024 - 53)) with (d1 - d2 - 53)
    in Hcore by lia.
  set (e0 := Z.min (d1 - d2 - 53) (0 - 0)) in *.
  set (m' := match 0 - 0 - e0 with
             | 0 => Zpos a
             | Zpos _ => Z.shiftl (Zpos a) (0 - 0 - e0)
             | Zneg _ => 0
             end) in *.
  assert (Hm' : 2 ^ (d2 + 52) <= m').
  { destruct (Z_le_gt_dec d1 (d2 + 53)) as [Hle|Hgt].
    - assert (He0 : e0 = d1 - d2 - 53) by (unfold e0; lia).
      assert (Hm'eq : m' = Zpos a * 2 ^ (d2 + 53 - d1)).
      { unfold m'. rewrite He0.
        destruct (0 - 0 - (d1 - d2 - 53)) as [|s|s] eqn:Hs; try lia.
        - replace (d2 + 53 - d1) with 0 by lia. lia.
        - rewrite Z.shiftl_mul_pow2 by lia. f_equal. f_equal. lia. }
      rewrite Hm'eq.
      replace (d2 + 52) with ((d1 - 1) + (d2 + 53 - d1)) by lia.
      rewrite Z.pow_add_r by lia.
      apply Z.mul_le_mono_nonneg_r; [apply Z.pow_nonneg; lia | assumption].
    - assert (He0 : e0 = 0) by (unfold e0; lia).
      unfold m'. rewrite He0. change (0 - 0 - 0) with 0. cbv beta iota.
      eapply Z.le_trans; [|exact Ha]. apply Z.pow_le_mono_r; lia. }
  assert (Hq : q = m' / Zpos b /\ e' = e0).
  { unfold Z.div. destruct (Z.div_eucl m' (Zpos b)) as [q0 r0].
    injection Hcore as <- <- _. auto. }
  destruct Hq as [-> ->].
  assert (Hq52 : 2 ^ 52 <= m' / Zpos b).
  { apply Z.div_le_lower_bound; [lia|].
    eapply Z.le_trans; [|exact Hm'].
    rewrite Z.pow_add_r by lia.
    apply Z.mul_le_mono_nonneg_r; [apply Z.pow_nonneg; lia | lia]. }
  apply binary_round_aux_pos.
  - pose proof (Z.pow_pos_nonneg 2 52). lia.
  - pose proof (Zdigits2_lower (m' / Zpos b) 52 ltac:(lia) Hq52).
    unfold emin, JS.prec, JS.emax, e0. lia.
Qed.

(** A decimal numeral with nonzero digits and an exponent of [-1] or
    more reads as a nonzero Number of the same sign. *)
Lemma of_decimal_sign (neg : bool) (p : positive) (E : Z) :
  -1 <= E ->
  (exists m e, JS.of_decimal neg (Npos p) E = S754_finite neg m e) \/
  JS.of_decimal neg (Npos p) E = S754_infinity neg.
Proof.
  intros HE. unfold JS.of_decimal. apply SFdiv_small_divisor_sign.
  destruct (Z.eq_dec E (-1)) as [->|Hne].
  - vm_compute. discriminate.
  - rewrite Z.max_r by lia. vm_compute. discriminate.
Qed.

(** ** Decimal numerals and the fixed notation *)

Lemma string_of_uint_digits (d : Decimal.uint) :
  forallb JS.is_digit (list_ascii_of_string (NilEmpty.string_of_uint d)) = true.
Proof. induction d; simpl; auto. Qed.

Lemma uint_of_digits_string (d : Decimal.uint) :
  JS.uint_of_digits (list_ascii_of_string (NilEmpty.string_of_uint d)) = d.
Proof. induction d; simpl; congruence. Qed.

Lemma to_uint_nonnil (n : N) : N.to_uint n <> Decimal.Nil.
Proof.
  destruct n as [|p]; simpl; [discriminate|].
  apply Unsigned.to_uint_nonnil.
Qed.

Lemma decimal_string_eq (n : N) :
  JS.decimal_string n = NilEmpty.string_of_uint (N.to_uint n).
Proof.
  unfold JS.decimal_string, NilZero.string_of_uint.
  pose proof (to_uint_nonnil n). destruct (N.to_uint n); congruence.
Qed.

Lemma decimal_string_digits (n : N) :
  forallb JS.is_digit (list_ascii_of_string (JS.decimal_string n)) = true.
Proof. rewrite decimal_string_eq. apply string_of_uint_digits. Qed.

Lemma decimal_string_value (n : N) :
  JS.digits_value (list_ascii_of_string (JS.decimal_string n)) = n.
Proof.
  unfold JS.digits_value. rewrite decimal_string_eq, uint_of_digits_string.
  apply DecimalN.Unsigned.of_to.
Qed.

Lemma decimal_string_nonempty (n : N) :
  (1 <= List.length (list_ascii_of_string (JS.decimal_string n)))%nat.
Proof.
  rewrite decimal_string_eq. pose proof (to_uint_nonnil n).
  destruct (N.to_uint n); simpl; try lia. congruence.
Qed.

Lemma digits_value_pad (k : nat) (cs : list ascii) :
  JS.digits_value (repeat "0"%char k ++ cs) = JS.digits_value cs.
Proof.
  unfold JS.digits_value. induction k as [|k IH]; simpl; [reflexivity|].
  exact IH.
Qed.

Lemma forallb_repeat_zero (k : nat) :
  forallb JS.is_digit (repeat "0"%char k) = true.
Proof. induction k; simpl; auto. Qed.

Lemma span_digits_all (ds : list ascii) :
  forallb JS.is_digit ds = true -> JS.span_digits ds = (ds, []).
Proof.
  induction ds as [|c ds IH]; simpl; [reflexivity|].
  intros H. apply andb_prop in H as [Hc Hds]. rewrite Hc, (IH Hds). reflexivity.
Qed.

Lemma span_digits_stop (ds : list ascii) (c : ascii) (rest : list ascii) :
  forallb JS.is_digit ds = true -> JS.is_digit c = false ->
  JS.span_digits (ds ++ c :: rest) = (ds, c :: rest).
Proof.
  intros Hds Hc. induction ds as [|d ds IH]; simpl.
  - now rewrite Hc.
  - simpl in Hds. apply andb_prop in Hds as [Hd Hds].
    rewrite Hd, (IH Hds). reflexivity.
Qed.

Lemma digit_not_other (c x : ascii) :
  JS.is_digit c = true -> JS.is_digit x = false -> Ascii.eqb x c = false.
Proof.
  intros Hc Hx. destruct (Ascii.eqb x c) eqn:E; [|reflexivity].
  apply Ascii.eqb_eq in E. congruence.
Qed.

Lemma digit_not_space (c : ascii) : JS.is_digit c = true -> JS.is_space c = false.
Proof.
  unfold JS.is_digit, JS.is_space. intros H.
  apply andb_prop in H as [H1 H2].
  apply Nat.leb_le in H1, H2.
  apply orb_false_intro.
  - apply andb_false_intro2. apply Nat.leb_gt. lia.
  - apply Nat.eqb_neq. lia.
Qed.

Lemma strip_prefix_one (x c : ascii) (r : list ascii) :
  JS.strip_prefix [x] (c :: r) = if Ascii.eqb x c then Some r else None.
Proof. reflexivity. Qed.

Lemma trim_digit_ends (c : ascii) (pre ex : list ascii) :
  JS.is_space c = false -> ex <> [] -> forallb JS.is_digit ex = true ->
  JS.trim (c :: pre ++ ex) = c :: pre ++ ex.
Proof.
  intros Hc Hne Hex. unfold JS.trim. cbn [JS.skip_spaces]. rewrite Hc.
  assert (Hrev : JS.skip_spaces (rev (c :: pre ++ ex)) = rev (c :: pre ++ ex)).
  { cbn [rev]. rewrite rev_app_distr.
    destruct (rev ex) as [|x r] eqn:Er.
    - exfalso. apply Hne. rewrite <- (rev_involutive ex), Er. reflexivity.
    - assert (Hx : JS.is_digit x = true).
      { rewrite forallb_forall in Hex. apply Hex. apply in_rev.
        rewrite Er. now left. }
      cbn [app JS.skip_spaces]. now rewrite (digit_not_space x Hx). }
  rewrite Hrev. apply rev_involutive.
Qed.

(** A numeral that starts with a digit and ends with digits is read as
    a whole, behind its sign. *)
Lemma StringToNumber_signed (neg : bool) (c : ascii) (pre ex : list ascii)
  (v : JS.number) :
  JS.is_digit c = true -> ex <> [] -> forallb JS.is_digit ex = true ->
  JS.scan_unsigned neg (c :: pre ++ ex) = Some (v, []) ->
  JS.StringToNumber
    ((if neg then "-" else EmptyString) ++
     string_of_list_ascii (c :: pre ++ ex))%string = v.
Proof.
  intros Hc Hne Hex Hscan. unfold JS.StringToNumber.
  assert (Hl : list_ascii_of_string
                 ((if neg then "-" else EmptyString) ++
                  string_of_list_ascii (c :: pre ++ ex))%string =
               (if neg then ["-"%char] else []) ++ c :: pre ++ ex).
  { destruct neg; simpl; now rewrite list_ascii_of_string_of_list_ascii. }
  rewrite Hl. clear Hl. destruct neg.
  - change (["-"%char] ++ c :: pre ++ ex) with ("-"%char :: (c :: pre) ++ ex).
    rewrite trim_digit_ends by (try reflexivity; assumption).
    unfold JS.scan_signed. cbn [JS.strip_prefix Ascii.eqb Bool.eqb].
    cbn [app]. now rewrite Hscan.
  - cbn [app]. rewrite trim_digit_ends by (try apply digit_not_space; assumption).
    unfold JS.scan_signed. rewrite !strip_prefix_one.
    rewrite (digit_not_other c "+" Hc eq_refl), (digit_not_other c "-" Hc eq_refl).
    now rewrite Hscan.
Qed.


(** The shape of [fixed1 n]. *)
Lemma fixed1_shape (n : N) :
  exists c a d,
    JS.fixed1 n = (c :: a ++ ["."%char; d])%list /\
    forallb JS.is_digit (c :: a) = true /\
    JS.is_digit d = true /\
    JS.digits_value ((c :: a) ++ [d]) = n.
Proof.
  unfold JS.fixed1.
  set (m := list_ascii_of_string (JS.decimal_string n)).
  set (m' := (repeat "0"%char (2 - List.length m) ++ m)%list).
  assert (Hlen : (2 <= List.length m')%nat).
  { unfold m'. rewrite length_app, repeat_length.
    pose proof (decimal_string_nonempty n). fold m in H. lia. }
  assert (Hdig : forallb JS.is_digit m' = true).
  { unfold m'. rewrite forallb_app, forallb_repeat_zero. simpl.
    apply decimal_string_digits. }
  assert (Hval : JS.digits_value m' = n).
  { unfold m'. rewrite digits_value_pad. apply decimal_string_value. }
  set (k := List.length m') in *.
  pose proof (firstn_skipn (k - 1) m') as Hsplit.
  assert (Ha : List.length (firstn (k - 1) m') = (k - 1)%nat).
  { rewrite length_firstn. fold k. lia. }
  assert (Hb : List.length (skipn (k - 1) m') = 1%nat).
  { rewrite length_skipn. fold k. lia. }
  destruct (firstn (k - 1) m') as [|c a] eqn:Ea; [simpl in Ha; lia|].
  destruct (skipn (k - 1) m') as [|d [|? ?]] eqn:Eb; try (simpl in Hb; lia).
  exists c, a, d.
  rewrite <- Hsplit in Hdig, Hval.
  rewrite forallb_app in Hdig. apply andb_prop in Hdig as [Hca Hd].
  simpl in Hd. rewrite andb_true_r in Hd.
  repeat split; try assumption.
Qed.

(** Reading back the fixed notation. *)
Lemma scan_unsigned_fixed1 (neg : bool) (n : N) :
  JS.scan_unsigned neg (JS.fixed1 n) = Some (JS.of_decimal neg n (-1), []).
Proof.
  destruct (fixed1_shape n) as [c [a [d [Hshape [Hca [Hd Hval]]]]]].
  rewrite Hshape. unfold JS.scan_unsigned.
  assert (Hc : JS.is_digit c = true) by (simpl in Hca; now apply andb_prop in Hca).
  cbn [list_ascii_of_string JS.strip_prefix].
  rewrite (digit_not_other c "I" Hc eq_refl).
  change (c :: a ++ ["."%char; d])%list with ((c :: a) ++ "."%char :: [d])%list.
  rewrite (span_digits_stop (c :: a) "." [d] Hca eq_refl).
  change (Ascii.eqb "." ".") with true. cbv iota.
  rewrite (span_digits_all [d]) by (simpl; now rewrite Hd).
  cbn [app]. unfold JS.scan_exponent. cbn [JS.strip_prefix].
  change ((c :: a) ++ [d])%list with (c :: a ++ [d])%list in Hval.
  rewrite Hval. reflexivity.
Qed.

Lemma StringToNumber_fixed1 (neg : bool) (n : N) :
  JS.StringToNumber
    ((if neg then "-" else EmptyString) ++
     string_of_list_ascii (JS.fixed1 n))%string =
  JS.of_decimal neg n (-1).
Proof.
  pose proof (scan_unsigned_fixed1 neg n) as Hscan.
  destruct (fixed1_shape n) as [c [a [d [Hshape [Hca [Hd _]]]]]].
  assert (Hc : JS.is_digit c = true)
    by (simpl in Hca; now apply andb_prop in Hca).
  assert (Hre : c :: a ++ ["."%char; d] = c :: (a ++ ["."%char]) ++ [d])
    by now rewrite <- app_assoc.
  rewrite Hshape, Hre in *.
  apply StringToNumber_signed; try assumption; [discriminate|].
  simpl. now rewrite Hd.
Qed.

(** ** Decimal length and the exponential notation *)

Lemma string_of_uint_length (d : Decimal.uint) :
  List.length (list_ascii_of_string (NilEmpty.string_of_uint d)) =
  Decimal.nb_digits d.
Proof. induction d; simpl; congruence. Qed.

Lemma usize_nb_digits (d : Decimal.uint) :
  Unsigned.usize d = N.of_nat (Decimal.nb_digits d).
Proof.
  induction d; cbn [Unsigned.usize Decimal.nb_digits];
    rewrite ?IHd, ?Nat2N.inj_succ; reflexivity.
Qed.

Lemma of_lu_upper (d : Decimal.uint) :
  (Unsigned.of_lu d < 10 ^ Unsigned.usize d)%N.
Proof.
  induction d; cbn [Unsigned.of_lu Unsigned.usize];
    rewrite ?N.pow_succ_r'; lia.
Qed.

Lemma of_uint_upper (d : Decimal.uint) :
  (N.of_uint d < 10 ^ N.of_nat (Decimal.nb_digits d))%N.
Proof.
  unfold N.of_uint. rewrite Unsigned.of_uint_alt.
  rewrite <- (nb_digits_rev d), <- usize_nb_digits. apply of_lu_upper.
Qed.

Lemma of_uint_acc_lower (d : Decimal.uint) (acc : positive) :
  (10 ^ N.of_nat (Decimal.nb_digits d) <= Npos (Pos.of_uint_acc d acc))%N.
Proof.
  rewrite Unsigned.of_uint_acc_rev, <- usize_nb_digits.
  assert (0 < 10 ^ Unsigned.usize d)%N by (apply N.neq_0_lt_0, N.pow_nonzero; lia).
  nia.
Qed.

Lemma to_uint_head (p : positive) : forall l, Pos.to_uint p <> Decimal.D0 l.
Proof.
  intros l Hl.
  pose proof (Unsigned.to_of (Pos.to_uint p)) as Hto.
  rewrite Unsigned.of_to in Hto. cbn [N.to_uint] in Hto.
  pose proof (Unsigned.to_uint_nonzero p) as Hnz.
  destruct (Decimal.uint_eq_dec (Decimal.nzhead (Pos.to_uint p)) Decimal.Nil) as [Hnil|Hnil].
  - apply (proj2 (unorm_0 _)) in Hnil. congruence.
  - rewrite (unorm_nzhead _ Hnil) in Hto.
    apply (nzhead_nonzero (Pos.to_uint p) l). congruence.
Qed.

Lemma to_uint_lower (p : positive) :
  (10 ^ N.of_nat (Decimal.nb_digits (Pos.to_uint p) - 1) <= Npos p)%N.
Proof.
  pose proof (Unsigned.of_to p) as Hof.
  pose proof (to_uint_head p) as Hhd.
  pose proof (Unsigned.to_uint_nonnil p) as Hnn.
  destruct (Pos.to_uint p) as [|l|l|l|l|l|l|l|l|l|l]; try congruence;
    try (exfalso; now apply (Hhd l));
    rewrite <- Hof; cbn [Pos.of_uint Decimal.nb_digits];
    rewrite Nat.sub_succ, Nat.sub_0_r; apply of_uint_acc_lower.
Qed.

(** The decimal numeral of [n > 0] has exactly as many digits as [n]
    needs: [10^(L-1) <= n < 10^L]. *)
Lemma decimal_length_bounds (n : N) :
  let L := Z.of_nat (List.length (list_ascii_of_string (JS.decimal_string n))) in
  (0 < n)%N -> 10 ^ (L - 1) <= Z.of_N n < 10 ^ L.
Proof.
  intros L Hn. subst L.
  destruct n as [|p]; [lia|].
  unfold JS.decimal_string, NilZero.string_of_uint. cbn [N.to_uint].
  pose proof (Unsigned.to_uint_nonnil p) as Hnn.
  assert (Heq : match Pos.to_uint p with
                | Decimal.Nil => "0"%string
                | _ => NilEmpty.string_of_uint (Pos.to_uint p)
                end = NilEmpty.string_of_uint (Pos.to_uint p)).
  { destruct (Pos.to_uint p); congruence. }
  rewrite Heq, string_of_uint_length.
  pose proof (to_uint_lower p) as Hlo.
  pose proof (of_uint_upper (Pos.to_uint p)) as Hup.
  unfold N.of_uint in Hup. rewrite Unsigned.of_to in Hup.
  assert (Hlen : (1 <= Decimal.nb_digits (Pos.to_uint p))%nat).
  { destruct (Pos.to_uint p); simpl; try lia. congruence. }
  set (k := Decimal.nb_digits (Pos.to_uint p)) in *.
  apply N2Z.inj_le in Hlo. apply N2Z.inj_lt in Hup.
  rewrite N2Z.inj_pow in Hlo, Hup. rewrite !nat_N_Z in Hlo, Hup.
  change (Z.of_N 10) with 10 in *.
  replace (Z.of_nat k - 1) with (Z.of_nat (k - 1)) by lia.
  split; assumption.
Qed.

Lemma decimal_string_cons (n : N) :
  exists d ds',
    list_ascii_of_string (JS.decimal_string n) = d :: ds' /\
    forallb JS.is_digit (d :: ds') = true /\
    JS.digits_value (d :: ds') = n.
Proof.
  pose proof (decimal_string_nonempty n) as Hne.
  pose proof (decimal_string_digits n) as Hdig.
  pose proof (decimal_string_value n) as Hval.
  destruct (list_ascii_of_string (JS.decimal_string n)) as [|d ds'];
    [simpl in Hne; lia|].
  now exists d, ds'.
Qed.

Lemma shortest_digits_bounds (fuel : nat) :
  forall k X n,
    1 <= k -> k + Z.of_nat fuel <= n + 1 -> 1 <= n -> 10 ^ (n - 1) <= X ->
    let '(s, n') := JS.shortest_digits fuel k X n in
    1 <= s <= X + 1 /\ n <= n'.
Proof.
  induction fuel as [|fuel IH]; intros k X n Hk Hfuel Hn HX.
  - cbn [JS.shortest_digits].
    pose proof (Z.pow_pos_nonneg 10 (n - 1) ltac:(lia) ltac:(lia)). lia.
  - cbn [JS.shortest_digits].
    set (p := 10 ^ (n - k)).
    assert (Hp1 : 1 <= p).
    { unfold p. pose proof (Z.pow_pos_nonneg 10 (n - k) ltac:(lia) ltac:(lia)). lia. }
    assert (HpX : p <= X).
    { eapply Z.le_trans; [|exact HX]. unfold p. apply Z.pow_le_mono_r; lia. }
    set (lo := X / p).
    assert (Hlo : 1 <= lo <= X).
    { unfold lo. split.
      - apply Z.div_le_lower_bound; lia.
      - apply Z.div_le_upper_bound; [lia|]. nia. }
    assert (Hfinal : forall s, 1 <= s <= X + 1 ->
              let '(s', n') := if s =? 10 ^ k then (s / 10, n + 1) else (s, n) in
              1 <= s' <= X + 1 /\ n <= n').
    { intros s Hs. destruct (s =? 10 ^ k) eqn:E.
      - apply Z.eqb_eq in E. split; [|lia].
        assert (s / 10 = 10 ^ (k - 1)).
        { rewrite E. replace k with (Z.succ (k - 1)) at 1 by lia.
          rewrite Z.pow_succ_r by lia. rewrite Z.mul_comm, Z.div_mul by lia.
          reflexivity. }
        pose proof (Z.pow_pos_nonneg 10 (k - 1) ltac:(lia) ltac:(lia)).
        assert (s / 10 <= s) by (apply Z.div_le_upper_bound; lia).
        lia.
      - split; lia. }
    destruct (SFeqb (JS.of_integer (lo * p)) (JS.of_integer X));
      destruct (SFeqb (JS.of_integer ((lo + 1) * p)) (JS.of_integer X));
      cbn [andb];
      try destruct (X - lo * p ?= (lo + 1) * p - X);
      try destruct (Z.even lo);
      try (apply Hfinal; lia).
    all: apply IH; lia.
Qed.

Lemma scan_exponent_plus (ex : list ascii) :
  ex <> [] -> forallb JS.is_digit ex = true ->
  JS.scan_exponent ("e"%char :: "+"%char :: ex) =
  (Z.of_N (JS.digits_value ex), []).
Proof.
  intros Hne Hex. unfold JS.scan_exponent.
  cbn [JS.strip_prefix Ascii.eqb Bool.eqb].
  rewrite (span_digits_all ex Hex).
  destruct ex; [congruence | reflexivity].
Qed.

(** Reading back the exponential notation [d.ddd e+NN]. *)
Lemma scan_unsigned_exponential (neg : bool) (d : ascii) (ds' ex : list ascii) :
  forallb JS.is_digit (d :: ds') = true ->
  ex <> [] -> forallb JS.is_digit ex = true ->
  JS.scan_unsigned neg
    match ds' with
    | [] => d :: "e"%char :: "+"%char :: ex
    | _ :: _ => d :: "."%char :: ds' ++ "e"%char :: "+"%char :: ex
    end =
  Some (JS.of_decimal neg (JS.digits_value (d :: ds'))
          (Z.of_N (JS.digits_value ex) - Z.of_nat (List.length ds')), []).
Proof.
  intros Hds Hne Hex.
  assert (Hd : JS.is_digit d = true) by (simpl in Hds; now apply andb_prop in Hds).
  assert (Hds' : forallb JS.is_digit ds' = true) by (simpl in Hds; now apply andb_prop in Hds).
  unfold JS.scan_unsigned.
  destruct ds' as [|d1 ds1].
  - cbn [list_ascii_of_string JS.strip_prefix].
    rewrite (digit_not_other d "I" Hd eq_refl).
    change (d :: "e"%char :: "+"%char :: ex) with ([d] ++ "e"%char :: "+"%char :: ex).
    rewrite (span_digits_stop [d] "e" _ ltac:(simpl; now rewrite Hd) eq_refl).
    cbn [JS.strip_prefix Ascii.eqb Bool.eqb].
    rewrite (scan_exponent_plus ex Hne Hex).
    cbn [List.length Z.of_nat]. rewrite Z.sub_0_r. reflexivity.
  - cbn [list_ascii_of_string JS.strip_prefix].
    rewrite (digit_not_other d "I" Hd eq_refl).
    change (d :: "."%char :: (d1 :: ds1) ++ "e"%char :: "+"%char :: ex)
      with ([d] ++ "."%char :: (d1 :: ds1) ++ "e"%char :: "+"%char :: ex).
    rewrite (span_digits_stop [d] "." _ ltac:(simpl; now rewrite Hd) eq_refl).
    cbn [JS.strip_prefix Ascii.eqb Bool.eqb].
    rewrite (span_digits_stop (d1 :: ds1) "e" _ Hds' eq_refl).
    cbn [app]. rewrite (scan_exponent_plus ex Hne Hex). reflexivity.
Qed.

(** Exponential notation of an integer of magnitude [10^21] or more
    reads back as a nonzero Number behind its sign. *)
Lemma StringToNumber_large (neg : bool) (X : Z) :
  10 ^ 21 <= X ->
  exists p E,
    -1 <= E /\
    JS.StringToNumber
      ((if neg then "-" else EmptyString) ++
       string_of_list_ascii (JS.toString_large X))%string =
    JS.of_decimal neg (Npos p) E.
Proof.
  intros HX. unfold JS.toString_large.
  pose proof (decimal_length_bounds (Z.to_N X) ltac:(lia)) as Hbounds.
  cbv zeta in Hbounds. rewrite Z2N.id in Hbounds by lia.
  fold (JS.decimal_size X) in Hbounds.
  set (n0 := JS.decimal_size X) in *.
  assert (Hn0 : 22 <= n0).
  { destruct (Z_lt_le_dec n0 22) as [Hlt|]; [|assumption].
    exfalso. assert (10 ^ n0 <= 10 ^ 21) by (apply Z.pow_le_mono_r; lia). lia. }
  pose proof (shortest_digits_bounds 21 1 X n0 ltac:(lia) ltac:(lia) ltac:(lia)
                (proj1 Hbounds)) as Hsd.
  destruct (JS.shortest_digits 21 1 X n0) as [s n'].
  destruct Hsd as [Hs Hn'].
  destruct (decimal_string_cons (Z.to_N s)) as [d [ds' [Eds [Hds Hval]]]].
  destruct (decimal_string_cons (Z.to_N (n' - 1))) as [x [ex' [Eex [Hex Hxval]]]].
  pose proof (decimal_length_bounds (Z.to_N s) ltac:(lia)) as Hslen.
  cbv zeta in Hslen. rewrite Eds, Z2N.id in Hslen by lia.
  rewrite Eds, Eex.
  assert (Hlen : Z.of_nat (List.length (d :: ds')) <= n' + 1).
  { destruct (Z_le_gt_dec (Z.of_nat (List.length (d :: ds'))) (n' + 1)) as [|Hgt];
      [assumption|exfalso].
    assert (10 ^ (n0 + 1) <= 10 ^ (Z.of_nat (List.length (d :: ds')) - 1))
      by (apply Z.pow_le_mono_r; lia).
    rewrite Z.pow_add_r in * by lia.
    pose proof (Z.pow_pos_nonneg 10 n0 ltac:(lia) ltac:(lia)). lia. }
  set (E := Z.of_N (JS.digits_value (x :: ex')) - Z.of_nat (List.length ds')).
  assert (HE : -1 <= E).
  { unfold E. rewrite Hxval, Z2N.id by lia. cbn [List.length] in Hlen. lia. }
  destruct (Z.to_N s) as [|p] eqn:Es; [lia|].
  exists p, E. split; [exact HE|].
  pose proof (scan_unsigned_exponential neg d ds' (x :: ex') Hds
                ltac:(discriminate) Hex) as Hscan.
  fold E in Hscan. rewrite Hval in Hscan.
  assert (Hd : JS.is_digit d = true) by (simpl in Hds; now apply andb_prop in Hds).
  destruct ds' as [|d1 ds1].
  - apply (StringToNumber_signed neg d ["e"%char; "+"%char] (x :: ex'));
      try assumption; discriminate.
  - replace (d :: "."%char :: (d1 :: ds1) ++ "e"%char :: "+"%char :: x :: ex')
      with (d :: ("."%char :: (d1 :: ds1) ++ ["e"%char; "+"%char]) ++ x :: ex')
      in * by (cbn [app]; now rewrite <- app_assoc).
    apply StringToNumber_signed; try assumption; discriminate.
Qed.

Local Open Scope string_scope.

(** ** Basic facts about the state cells *)

Lemma app_singleton_neq {A} (l : list A) (x : A) : (l ++ [x])%list <> l.
Proof.
  intro H. apply (f_equal (@List.length A)) in H.
  rewrite length_app in H. simpl in H. lia.
Qed.

Lemma includes_In (x : string) (arr : list string) :
  includes x arr = true <-> In x arr.
Proof.
  unfold includes. rewrite existsb_exists. split.
  - intros [y [Hy Heq]]. apply String.eqb_eq in Heq. now subst.
  - intros H. exists x. split; [assumption | apply String.eqb_refl].
Qed.

Lemma without_In (x y : string) (arr : list string) :
  In y (without x arr) <-> In y arr /\ y <> x.
Proof.
  unfold without. rewrite filter_In. split.
  - intros [H1 H2]. split; [assumption|].
    intro; subst. rewrite String.eqb_refl in H2. discriminate.
  - intros [H1 H2]. split; [assumption|].
    apply Bool.negb_true_iff. now apply String.eqb_neq.
Qed.

Lemma without_excludes (x : string) (arr : list string) :
  ~ In x (without x arr).
Proof. rewrite without_In. tauto. Qed.

(** ** Invariants of the event loop *)

Section RunInvariant.

Variable P : Session -> Prop.
Hypothesis P_initial : P initial.
Hypothesis P_step : forall w ev, P (session w) -> P (session (step w ev)).

Lemma invariant_from (evs : list Event) :
  forall w, P (session w) -> P (session (fold_left step evs w)).
Proof.
  induction evs as [|ev evs IH]; intros w Hw; simpl.
  - exact Hw.
  - apply IH. now apply P_step.
Qed.

(** A property of the session that holds initially and that every step
    keeps holds in every state the event loop reaches. *)
Lemma run_invariant (evs : list Event) : P (session (run evs)).
Proof. unfold run. apply invariant_from. exact P_initial. Qed.

End RunInvariant.

(** ** What the page can trigger *)

Lemma In_remove_nth {A} (i : nat) (l : list A) (x : A) :
  In x (remove_nth i l) -> In x l.
Proof.
  unfold remove_nth. rewrite in_app_iff. intros [H | H].
  - rewrite <- (firstn_skipn i l). apply in_or_app. now left.
  - rewrite <- (firstn_skipn (S i) l). apply in_or_app. now right.
Qed.

(** Through the page, a recalibration is only ever posted from a session
    that holds a report: the closure of every pending recalibration has
    one. *)
Lemma refine_posted_with_report (evs : list Event) :
  forall closure,
    In (AwaitRefine closure) (inflight (run_ui evs)) ->
    report closure <> None.
Proof.
  unfold run_ui.
  assert (Hfrom : forall w,
             (forall c, In (AwaitRefine c) (inflight w) -> report c <> None) ->
             forall c, In (AwaitRefine c) (inflight (fold_left step_ui evs w)) ->
                       report c <> None).
  { induction evs as [|ev evs IH]; intros w Hw; [exact Hw|].
    simpl. apply IH. clear IH. unfold step_ui.
    destruct (rendered (session w) ev) eqn:Hr; [|exact Hw].
    destruct ev as [f | c0 | t | n | | i outcome clk]; simpl in *;
      try exact Hw.
    - destruct f; simpl; [|exact Hw].
      intros c Hc. apply in_app_or in Hc as [Hc | [Hc | []]];
        [now apply Hw | discriminate].
    - unfold handleRefine_begin.
      destruct (file (session w)); [|exact Hw].
      destruct (no_target (selectedTarget (session w))); [exact Hw|].
      simpl. intros c Hc. apply in_app_or in Hc as [Hc | [Hc | []]];
        [now apply Hw|].
      injection Hc as <-. destruct (report (session w)); discriminate.
    - destruct (nth_error (inflight w) i) as [[|closure]|]; [| |exact Hw];
        simpl; intros c Hc; apply Hw; now apply In_remove_nth in Hc. }
  apply Hfrom. intros c [].
Qed.

(** The sessions used as examples are reached through the page. *)
Lemma sample_worlds_rendered :
  run_ui [UploadFile (Some "data.csv");
          Settle 0 (Some (sample_report (JS.Str "82.0%"))) noon] =
    ready_world /\
  run_ui [UploadFile (Some "data.csv");
          Settle 0 (Some (sample_report (JS.Str "82.0%"))) noon;
          RequestRecalibration] = busy_world /\
  rendered (session busy_world) RequestRecalibration = true /\
  rendered (session ready_world) (ToggleColumn "churn") = true.
Proof. repeat split. Qed.

(** ** Single flight *)

(** Splits on the guard of [handleRefine]: a file and a target, a file
    without target, no file. *)
Ltac refine_guard s :=
  unfold handleRefine_begin;
  destruct (file s); [destruct (no_target (selectedTarget s))|].

Lemma handleRefine_begin_rejected (s : Session) :
  refine_rejected s = true -> handleRefine_begin s = (s, None).
Proof.
  unfold refine_rejected, handleRefine_begin.
  destruct (file s); [intros ->|]; reflexivity.
Qed.

Lemma handleRefine_begin_posts (s : Session) :
  refine_rejected s = false ->
  exists f,
    file s = Some f /\
    handleRefine_begin s =
      (setLoading true s,
       Some {| form_file := f;
               form_selected_columns := selectedCols s;
               form_target_column := selectedTarget s |}).
Proof.
  unfold refine_rejected, handleRefine_begin.
  destruct (file s) as [f|]; [|discriminate].
  intros ->. now exists f.
Qed.

(** C1, as stated, fails: with [loading = true], a file and a target, a
    second call of [handleRefine] posts a second recalibration request
    while the first one is still in flight. *)
Lemma busy_refine_posts_again :
  loading (session busy_world) = true /\
  List.length (inflight busy_world) = 1%nat /\
  outbox (step busy_world RequestRecalibration) =
    (outbox busy_world ++
     [{| form_file := "data.csv";
         form_selected_columns := ["age"; "plan"];
         form_target_column := Some "churn" |}])%list /\
  outbox (step busy_world RequestRecalibration) <> outbox busy_world.
Proof.
  split; [reflexivity|]. split; [reflexivity|]. split; [reflexivity|].
  vm_compute. discriminate.
Qed.

(** C1, amended: [handleRefine] is dropped without any effect (no
    request, no alert, state unchanged) exactly when no file is held or
    no target is selected; [loading] is never consulted, so with a file
    and a target the request is posted and [loading] raised even while
    another request is in flight. *)
Theorem refine_guard_is_file_and_target (w : World) :
  (step w RequestRecalibration = w <-> refine_rejected (session w) = true) /\
  (refine_rejected (session w) = false ->
   exists req,
     outbox (step w RequestRecalibration) = (outbox w ++ [req])%list /\
     form_selected_columns req = selectedCols (session w) /\
     form_target_column req = selectedTarget (session w) /\
     file (session w) = Some (form_file req) /\
     session (step w RequestRecalibration) = setLoading true (session w)).
Proof.
  split; [split|].
  - intros Hstep. destruct (refine_rejected (session w)) eqn:Hr; [reflexivity|].
    destruct (handleRefine_begin_posts _ Hr) as [f [_ Hb]].
    apply (f_equal outbox) in Hstep. simpl in Hstep. rewrite Hb in Hstep.
    simpl in Hstep. now apply app_singleton_neq in Hstep.
  - intros Hr. simpl. rewrite (handleRefine_begin_rejected _ Hr).
    destruct w; reflexivity.
  - intros Hr. destruct (handleRefine_begin_posts _ Hr) as [f [Hf Hb]].
    simpl. rewrite Hb. simpl. eexists. split; [reflexivity|].
    simpl. auto.
Qed.

Lemma refine_guard_is_file_and_target_witness :
  exists req,
    outbox (step busy_world RequestRecalibration) =
      (outbox busy_world ++ [req])%list /\
    form_selected_columns req = selectedCols (session busy_world) /\
    form_target_column req = selectedTarget (session busy_world) /\
    file (session busy_world) = Some (form_file req) /\
    session (step busy_world RequestRecalibration) =
      setLoading true (session busy_world).
Proof.
  apply (proj2 (refine_guard_is_file_and_target busy_world)). reflexivity.
Defined.

(** ** The target and the selected columns *)

Lemma target_excluded_initial : target_excluded initial.
Proof. intros t H. discriminate. Qed.

Lemma handleTargetChange_excludes (t : string) (s : Session) :
  target_excluded (handleTargetChange t s).
Proof.
  intros t' H. simpl in *. injection H as <-. apply without_excludes.
Qed.

Lemma processFile_settle_excludes (data : Report) (clk : Clock) (s : Session) :
  target_excluded (fst (processFile_settle (Some data) clk s)).
Proof.
  intros t H. simpl in *. injection H as <-. apply without_excludes.
Qed.

Lemma toggleColumn_other_excludes (c : string) (s : Session) :
  selectedTarget s <> Some c ->
  target_excluded s -> target_excluded (toggleColumn c s).
Proof.
  intros Hc Hs t Ht. simpl in *.
  destruct (includes c (selectedCols s)).
  - rewrite without_In. intros [Hin _]. now apply (Hs t).
  - rewrite in_app_iff. intros [Hin | [<- | []]].
    + now apply (Hs t).
    + now apply Hc.
Qed.

(** Every step other than toggling the target column itself keeps the
    target out of the selection. *)
Lemma target_excluded_step (w : World) (ev : Event) :
  spares_target (session w) ev ->
  target_excluded (session w) -> target_excluded (session (step w ev)).
Proof.
  intros Hev Hw. destruct ev as [f | c | t | n | | i outcome clk]; simpl.
  - destruct f; simpl; exact Hw.
  - apply toggleColumn_other_excludes; [now apply Hev | exact Hw].
  - apply handleTargetChange_excludes.
  - exact Hw.
  - refine_guard (session w); exact Hw.
  - destruct (nth_error (inflight w) i) as [[|closure]|]; [| |exact Hw].
    + destruct outcome as [[data|a|]|];
        [apply processFile_settle_excludes| |exact Hw|exact Hw].
      simpl. destruct (column_diagnostics a); [|exact Hw].
      intros t _ [].
    + unfold handleRefine_settle.
      destruct outcome as [[data|a|]|]; try exact Hw.
      destruct (report closure); exact Hw.
Qed.

(** C2, on the code: after a successful upload whose target is "churn",
    one click on "churn" in the feature picker ([toggleColumn "churn"])
    leaves the target inside [selectedCols]. *)
Theorem toggleColumn_admits_target :
  let s := session (step ready_world (ToggleColumn "churn")) in
  selectedTarget s = Some "churn" /\
  selectedCols s = ["age"; "plan"; "churn"] /\
  In "churn" (selectedCols s) /\
  ~ target_excluded s.
Proof.
  split; [reflexivity|]. split; [reflexivity|]. split.
  - vm_compute. auto.
  - intros H. apply (H "churn"); [reflexivity|]. vm_compute. auto.
Qed.

(** ** The first upload *)

(** C3, as stated, fails: the single entry logged by a first successful
    upload carries the trend "STABLE", not "INIT". *)
Lemma first_upload_trend_not_INIT :
  ~ (exists e,
       insights (session ready_world) = [e] /\
       trend e = "INIT" /\ diff e = "INIT").
Proof.
  intros [e [He [Ht _]]]. vm_compute in He. injection He as <-.
  discriminate Ht.
Qed.

(** C3, amended: a successful upload resets the log to exactly one
    entry, whose trend is "STABLE" and whose diff label is "INIT",
    whatever the state it started from. *)
Theorem upload_success_resets_log (f : File) (data : Report) (clk : Clock)
  (s : Session) :
  let s' := fst (fst (processFile (Some f) (Some data) clk s)) in
  insights s' = [baseline clk] /\
  List.length (insights s') = 1%nat /\
  trend (baseline clk) = "STABLE" /\
  diff (baseline clk) = "INIT" /\
  insights (fst (processFile_settle (Some data) clk s)) = [baseline clk].
Proof. repeat split. Qed.

(** ** The bounded log *)

Lemma insights_bounded_step (w : World) (ev : Event) :
  (List.length (insights (session w)) <= 5)%nat ->
  (List.length (insights (session (step w ev))) <= 5)%nat.
Proof.
  intros Hw. destruct ev as [f | c | t | n | | i outcome clk]; simpl.
  - destruct f; simpl; exact Hw.
  - exact Hw.
  - exact Hw.
  - exact Hw.
  - refine_guard (session w); exact Hw.
  - destruct (nth_error (inflight w) i) as [[|closure]|]; [| |exact Hw].
    + destruct outcome as [[data|a|]|]; simpl; [lia | | exact Hw | exact Hw].
      destruct (column_diagnostics a); exact Hw.
    + unfold handleRefine_settle.
      destruct outcome as [[data|a|]|]; try exact Hw.
      destruct (report closure); [|exact Hw].
      cbn [fst session setLoading setReport setInsights insights land].
      apply firstn_le_length.
Qed.

Lemma handleRefine_settle_success (closure : Session) (r data : Report)
  (clk : Clock) (s : Session) :
  report closure = Some r ->
  handleRefine_settle closure (Some data) clk s =
    (setLoading false
       (setReport (Some data)
          (setInsights
             (fun prev => firstn 5 (refine_entry closure r data clk :: prev))
             s)),
     None).
Proof.
  intros Hr. unfold handleRefine_settle, refine_entry. now rewrite Hr.
Qed.

(** Posted from a session without a report, a recalibration that
    resolves still ends in the [catch]: reading [report.analysis]
    throws, nothing is logged and the response is dropped. *)
Lemma handleRefine_settle_without_report (closure : Session) (data : Report)
  (clk : Clock) (s : Session) :
  report closure = None ->
  handleRefine_settle closure (Some data) clk s =
    (setLoading false s, Some "Refining failed.").
Proof. intros Hr. unfold handleRefine_settle. now rewrite Hr. Qed.

(** C5: the log never holds more than five entries, in any state
    reached from the initial one through uploads, local handlers,
    recalibrations and settlements in any order; and when a
    recalibration posted from a session holding a report resolves, the
    new entry is at index 0, the former entries 0 to 3 follow it in
    order, and a former entry at index 4 is gone. *)
Theorem insight_log_bounded_newest_first :
  (forall evs, (List.length (insights (session (run evs))) <= 5)%nat) /\
  (forall closure r data clk s,
     report closure = Some r ->
     let s' := fst (handleRefine_settle closure (Some data) clk s) in
     insights s' = refine_entry closure r data clk :: firstn 4 (insights s) /\
     nth_error (insights s') 0 = Some (refine_entry closure r data clk) /\
     (forall i, (i < 4)%nat ->
        nth_error (insights s') (S i) = nth_error (insights s) i) /\
     nth_error (insights s') 5 = None).
Proof.
  split.
  - apply (run_invariant
             (fun s => (List.length (insights s) <= 5)%nat)).
    + simpl. lia.
    + apply insights_bounded_step.
  - intros closure r data clk s Hr s'. subst s'.
    rewrite (handleRefine_settle_success _ _ _ _ _ Hr).
    cbn [fst insights setLoading setReport setInsights].
    rewrite firstn_cons.
    split; [reflexivity|]. split; [reflexivity|]. split.
    + intros i Hi. cbn [nth_error]. rewrite nth_error_firstn.
      apply Nat.ltb_lt in Hi. now rewrite Hi.
    + apply nth_error_None. cbn [List.length].
      pose proof (firstn_le_length 4 (insights s)). lia.
Qed.

Lemma insight_log_bounded_newest_first_witness :
  let s' :=
    fst (handleRefine_settle full_session
           (Some (sample_report (JS.Str "84.5%"))) noon full_session) in
  insights s' =
    refine_entry full_session (sample_report (JS.Str "82.0%"))
      (sample_report (JS.Str "84.5%")) noon ::
    firstn 4 (insights full_session) /\
  nth_error (insights s') 0 =
    Some (refine_entry full_session (sample_report (JS.Str "82.0%"))
            (sample_report (JS.Str "84.5%")) noon) /\
  (forall i, (i < 4)%nat ->
     nth_error (insights s') (S i) = nth_error (insights full_session) i) /\
  nth_error (insights s') 5 = None.
Proof.
  apply (proj2 insight_log_bounded_newest_first full_session
           (sample_report (JS.Str "82.0%"))).
  reflexivity.
Defined.

(** ** Failures *)

(** C6: a recalibration request that fails leaves the report and the
    log as they were, and every other cell but [loading], which is
    lowered; the alert "Refining failed." is shown, and the next call of
    [handleRefine] passes the guard and posts exactly as it would have
    before. *)
Theorem refine_failure_keeps_report_and_log (closure : Session) (clk : Clock)
  (s : Session) :
  let s' := fst (handleRefine_settle closure None clk s) in
  report s' = report s /\
  insights s' = insights s /\
  s' = setLoading false s /\
  snd (handleRefine_settle closure None clk s) = Some "Refining failed." /\
  snd (handleRefine_begin s') = snd (handleRefine_begin s) /\
  report (fst (fst (handleRefine None clk s))) = report s /\
  insights (fst (fst (handleRefine None clk s))) = insights s.
Proof.
  cbn [handleRefine_settle fst snd].
  split; [reflexivity|]. split; [reflexivity|]. split; [reflexivity|].
  split; [reflexivity|].
  assert (Hb : forall b,
             snd (handleRefine_begin (setLoading b s)) =
             snd (handleRefine_begin s)).
  { intros b. unfold handleRefine_begin. simpl.
    destruct (file s); [|reflexivity].
    destruct (no_target (selectedTarget s)); reflexivity. }
  split; [apply Hb|].
  unfold handleRefine. refine_guard s; split; reflexivity.
Qed.

(** C7, as stated, fails: after a failed first upload the session is not
    back in the empty state, since the file stored before the request
    is still held. *)
Lemma failed_upload_keeps_file :
  fst (fst (processFile (Some "data.csv") None noon initial)) <> initial /\
  file (fst (fst (processFile (Some "data.csv") None noon initial))) =
    Some "data.csv".
Proof. split; [discriminate | reflexivity]. Qed.

(** C7, amended: when the upload request fails, no report is installed
    and the selection, the target, the log and the open panel are as
    before the upload; [loading] is lowered and "Analysis failed." is
    shown; the uploaded file stays in [file]. *)
Theorem upload_failure_installs_nothing (f : File) (clk : Clock)
  (s : Session) :
  let '(s', reqs, alert) := processFile (Some f) None clk s in
  s' = setLoading false (setFile (Some f) s) /\
  file s' = Some f /\
  report s' = report s /\
  selectedCols s' = selectedCols s /\
  selectedTarget s' = selectedTarget s /\
  insights s' = insights s /\
  openDropdown s' = openDropdown s /\
  loading s' = false /\
  alert = Some "Analysis failed." /\
  reqs = [{| form_file := f; form_selected_columns := [];
             form_target_column := None |}].
Proof. repeat split. Qed.

(** ** Changing the target *)

(** What the handler itself does, in any session. *)
Lemma handleTargetChange_sets_and_prunes (ident : string) (s : Session) :
  let s' := handleTargetChange ident s in
  selectedTarget s' = Some ident /\
  selectedCols s' = without ident (selectedCols s) /\
  ~ In ident (selectedCols s') /\
  (forall c, In c (selectedCols s') <-> In c (selectedCols s) /\ c <> ident) /\
  openDropdown s' = None /\
  loading s' = loading s /\ report s' = report s /\ file s' = file s /\
  insights s' = insights s.
Proof.
  cbn [handleTargetChange setOpenDropdown setSelectedCols setSelectedTarget
       selectedTarget selectedCols openDropdown loading report file insights].
  split; [reflexivity|]. split; [reflexivity|].
  split; [apply without_excludes|].
  split; [intros c; apply without_In|].
  repeat split.
Qed.

(** C9: the target is changed through the target picker, which the page
    mounts only under a report.  In every state, without a report a
    change of target is a no-op: nothing of the state, the requests or
    the alerts changes.  With a report, choosing [id] sets the target to
    [id], removes [id] from the selected columns, keeping the others in
    order, closes the open panel and touches nothing else.  In
    particular, choosing "age" while "age" is selected leaves a
    selection without "age" and the target "age". *)
Theorem changeTarget_sets_target_and_prunes (w : World) (ident : string) :
  let w' := step_ui w (ChangeTarget ident) in
  (report (session w) = None -> w' = w) /\
  (report (session w) <> None ->
   selectedTarget (session w') = Some ident /\
   selectedCols (session w') = without ident (selectedCols (session w)) /\
   ~ In ident (selectedCols (session w')) /\
   (forall c,
      In c (selectedCols (session w')) <->
      In c (selectedCols (session w)) /\ c <> ident) /\
   openDropdown (session w') = None /\
   loading (session w') = loading (session w) /\
   report (session w') = report (session w) /\
   file (session w') = file (session w) /\
   insights (session w') = insights (session w) /\
   inflight w' = inflight w /\ outbox w' = outbox w /\
   alerts w' = alerts w) /\
  (let e := step_ui ready_world (ChangeTarget "age") in
   In "age" (selectedCols (session ready_world)) /\
   selectedCols (session e) = ["plan"] /\
   selectedTarget (session e) = Some "age").
Proof.
  intros w'. unfold w', step_ui. cbn [rendered].
  split; [|split].
  - intros Hr. now rewrite Hr.
  - intros Hr. destruct (report (session w)) as [r|] eqn:Hrep; [|congruence].
    cbn [step local session inflight outbox alerts].
    destruct (handleTargetChange_sets_and_prunes ident (session w))
      as [Ht [Hc [Hex [Hin [Hd [Hl [Hrp [Hf Hi]]]]]]]].
    rewrite Hrep in Hrp.
    split; [exact Ht|]. split; [exact Hc|]. split; [exact Hex|].
    split; [exact Hin|]. split; [exact Hd|]. split; [exact Hl|].
    split; [exact Hrp|]. split; [exact Hf|]. split; [exact Hi|].
    repeat split.
  - vm_compute. split; [now left|]. split; reflexivity.
Qed.

Lemma changeTarget_sets_target_and_prunes_witness :
  step_ui boot (ChangeTarget "age") = boot /\
  selectedTarget (session (step_ui ready_world (ChangeTarget "plan"))) =
    Some "plan".
Proof.
  split.
  - apply (changeTarget_sets_target_and_prunes boot "age"). reflexivity.
  - apply (changeTarget_sets_target_and_prunes ready_world "plan").
    discriminate.
Defined.

(** ** Where the pruned count comes from *)



(** ** Trend and label of a recalibration entry *)

Lemma tenths_nearest (m : positive) (e : Z) :
  nearest_tenth m e (Z.of_N (JS.tenths m e)).
Proof.
  unfold nearest_tenth, JS.tenths. destruct (e <? 0)%Z eqn:He.
  - apply Z.ltb_lt in He.
    set (P := (2 ^ (- e))%Z).
    assert (HP : (0 < P)%Z) by (apply Z.pow_pos_nonneg; lia).
    replace (2 ^ (1 - e))%Z with (2 * P)%Z
      by (unfold P; rewrite <- Z.pow_succ_r by lia; f_equal; lia).
    set (q := ((20 * Z.pos m + P) / (2 * P))%Z).
    assert (Hq : (0 <= q)%Z) by (apply Z.div_pos; lia).
    rewrite Z2N.id by exact Hq.
    pose proof (Z.div_mod (20 * Z.pos m + P) (2 * P) ltac:(lia)) as Hdm.
    pose proof (Z.mod_pos_bound (20 * Z.pos m + P) (2 * P) ltac:(lia)) as Hr.
    fold q in Hdm. nia.
  - apply Z.ltb_ge in He.
    assert (0 < 2 ^ e)%Z by (apply Z.pow_pos_nonneg; lia).
    rewrite Z2N.id by nia. reflexivity.
Qed.

Lemma compare_of_decimal_tenths (neg : bool) (n : N) :
  SFcompare (JS.of_decimal neg n (-1)) JS.zero =
  Some (match n with
        | N0 => Eq
        | Npos _ => if neg then Lt else Gt
        end).
Proof.
  destruct n as [|p]; [reflexivity|].
  destruct (of_decimal_sign neg p (-1) ltac:(lia)) as [[m [e ->]] | ->];
    destruct neg; reflexivity.
Qed.

Lemma SFcompare_zero_l (x : JS.number) (c : comparison) :
  SFcompare x JS.zero = Some c -> SFcompare JS.zero x = Some (CompOpp c).
Proof.
  destruct x as [s | s | | s m e]; simpl; try discriminate;
    intros H; injection H as <-; try destruct s; reflexivity.
Qed.

Lemma shiftl_ge_1e21 (m : positive) (e : Z) :
  JS.mag_ge_1e21 m e = true -> (10 ^ 21 <= Z.shiftl (Zpos m) e)%Z.
Proof.
  unfold JS.mag_ge_1e21. destruct (e <? 0)%Z eqn:He; intros H;
    apply Z.leb_le in H.
  - apply Z.ltb_lt in He.
    replace e with (- - e)%Z by lia.
    rewrite Z.shiftl_opp_r, Z.shiftr_div_pow2 by lia.
    apply Z.div_le_lower_bound; [apply Z.pow_pos_nonneg; lia | lia].
  - apply Z.ltb_ge in He. now rewrite Z.shiftl_mul_pow2.
Qed.

Lemma tenths_large_pos (m : positive) (e : Z) :
  JS.mag_ge_1e21 m e = true -> (0 < Z.of_N (JS.tenths m e))%Z.
Proof.
  unfold JS.mag_ge_1e21, JS.tenths. destruct (e <? 0)%Z eqn:He; intros H;
    apply Z.leb_le in H.
  - apply Z.ltb_lt in He.
    set (P := (2 ^ (- e))%Z) in *.
    assert (HP : (0 < P)%Z) by (apply Z.pow_pos_nonneg; lia).
    replace (2 ^ (1 - e))%Z with (2 * P)%Z
      by (unfold P; rewrite <- Z.pow_succ_r by lia; f_equal; lia).
    assert (1 <= (20 * Z.pos m + P) / (2 * P))%Z
      by (apply Z.div_le_lower_bound; nia).
    rewrite Z2N.id; lia.
  - apply Z.ltb_ge in He.
    assert (0 < 2 ^ e)%Z by (apply Z.pow_pos_nonneg; lia).
    rewrite Z2N.id; nia.
Qed.

Lemma compare_of_decimal (neg : bool) (p : positive) (E : Z) :
  (-1 <= E)%Z ->
  SFcompare (JS.of_decimal neg (Npos p) E) JS.zero =
  Some (if neg then Lt else Gt).
Proof.
  intros HE.
  destruct (of_decimal_sign neg p E HE) as [[m [e ->]] | ->];
    destruct neg; reflexivity.
Qed.

(** [diff > 0], [diff < 0] and [diff == 0], evaluated on the string of
    [toFixed], read the sign of the rounded difference, in every
    notation [toFixed] answers in. *)
Lemma sign_of_diff (x : JS.number) :
  positive_diff (JS.toFixed1 x) =
    match diff_sign x with Some Gt => true | _ => false end /\
  negative_diff (JS.toFixed1 x) =
    match diff_sign x with Some Lt => true | _ => false end /\
  zero_diff (JS.toFixed1 x) =
    match diff_sign x with Some Eq => true | _ => false end.
Proof.
  destruct x as [s | s | | s m e].
  - repeat split.
  - destruct s; repeat split.
  - repeat split.
  - unfold positive_diff, negative_diff, zero_diff, JS.toFixed1, JS.gtb,
      JS.ltb, SFltb, SFeqb.
    cbn [diff_sign rounded_tenths].
    destruct (JS.mag_ge_1e21 m e) eqn:Hr.
    + destruct (StringToNumber_large s _ (shiftl_ge_1e21 m e Hr))
        as [p [E [HE ->]]].
      pose proof (compare_of_decimal s p E HE) as Hc.
      rewrite (SFcompare_zero_l _ _ Hc), Hc.
      pose proof (tenths_large_pos m e Hr) as Hpos.
      destruct s.
      * replace (- Z.of_N (JS.tenths m e) ?= 0)%Z with Lt
          by (symmetry; apply Z.compare_lt_iff; lia).
        repeat split.
      * replace (Z.of_N (JS.tenths m e) ?= 0)%Z with Gt
          by (symmetry; apply Z.compare_gt_iff; lia).
        repeat split.
    + rewrite StringToNumber_fixed1.
      pose proof (compare_of_decimal_tenths s (JS.tenths m e)) as Hc.
      rewrite (SFcompare_zero_l _ _ Hc), Hc.
      destruct (JS.tenths m e) as [|p]; destruct s; repeat split.
Qed.

Lemma diff_sign_NaN (x : JS.number) : diff_sign x = None <-> x = JS.NaN.
Proof. destruct x; split; intros H; try discriminate; reflexivity. Qed.

Lemma toFixed1_fixed (x : JS.number) :
  fixed_range x = true ->
  JS.toFixed1 x =
    (if is_negative x then "-" else EmptyString) ++
    string_of_list_ascii (JS.fixed1 (Z.to_N (Z.abs (rounded_tenths x)))).
Proof.
  destruct x as [s | s | | s m e]; try discriminate.
  - reflexivity.
  - cbn [fixed_range]. intros Hr. apply Bool.negb_true_iff in Hr.
    unfold JS.toFixed1. rewrite Hr. cbn [is_negative rounded_tenths].
    destruct s; [rewrite Z.abs_opp|]; now rewrite Z.abs_eq, N2Z.id by lia.
Qed.

Lemma insight_trend_diff_suffix
  (prevAccuracy newAccuracy : JS.number) (totalColsCount activeColsCount : Z)
  (clk : Clock) :
  exists body,
    diff (newEntry prevAccuracy newAccuracy totalColsCount activeColsCount
            clk) = body ++ "%".
Proof.
  unfold newEntry. cbn [diff].
  set (x := JS.sub newAccuracy prevAccuracy).
  destruct (positive_diff (JS.toFixed1 x)).
  - exists (String "+" (JS.toFixed1 x)). reflexivity.
  - exists (JS.toFixed1 x). reflexivity.
Qed.

(** C4, as stated, fails: when the response carries no accuracy the
    difference is NaN; [diff == 0] is false, the rounded difference has
    no sign, and yet the entry is classified "STABLE". *)
Lemma stable_without_zero_diff :
  let prevAccuracy := prevAccuracy_of (Some (sample_report (JS.Str "82.0%"))) in
  let newAccuracy := JS.parseFloat (accuracy (stats (sample_report JS.Undefined))) in
  let x := JS.sub newAccuracy prevAccuracy in
  trend (newEntry prevAccuracy newAccuracy 3 2 noon) = "STABLE" /\
  zero_diff (JS.toFixed1 x) = false /\
  diff_sign x <> Some Eq /\
  ~ (trend (newEntry prevAccuracy newAccuracy 3 2 noon) = "STABLE" <->
     zero_diff (JS.toFixed1 x) = true).
Proof.
  vm_compute. split; [reflexivity|]. split; [reflexivity|].
  split; [discriminate|]. intros [H _]. specialize (H eq_refl). discriminate.
Qed.

(** C4, amended: with [x] the binary64 difference
    [newAccuracy - prevAccuracy] and its rounding to one decimal place,
    the tests [diff > 0], [diff < 0] and [diff == 0] of the code hold
    exactly when the rounded difference is positive, negative and zero;
    the trend of the entry is "OPTIMIZED" exactly when the rounded
    difference is positive, "DEGRADED" exactly when it is negative, and
    "STABLE" otherwise, that is exactly when it is zero or the
    difference is NaN.  The label is [toFixed(1)] of the difference
    followed by "%", preceded by "+" exactly when the rounded difference
    is positive.  For a finite difference the rounded value is a nearest
    tenth, and below [10^21] in magnitude the label spells it in fixed
    notation. *)
Theorem insight_trend_follows_rounded_diff
  (prevAccuracy newAccuracy : JS.number) (totalColsCount activeColsCount : Z)
  (clk : Clock) :
  let x := JS.sub newAccuracy prevAccuracy in
  let n := rounded_tenths x in
  let entry :=
    newEntry prevAccuracy newAccuracy totalColsCount activeColsCount clk in
  (positive_diff (JS.toFixed1 x) = true <-> diff_sign x = Some Gt) /\
  (negative_diff (JS.toFixed1 x) = true <-> diff_sign x = Some Lt) /\
  (zero_diff (JS.toFixed1 x) = true <-> diff_sign x = Some Eq) /\
  (trend entry = "OPTIMIZED" <-> diff_sign x = Some Gt) /\
  (trend entry = "DEGRADED" <-> diff_sign x = Some Lt) /\
  (trend entry = "STABLE" <-> diff_sign x = Some Eq \/ x = JS.NaN) /\
  diff entry =
    (match diff_sign x with Some Gt => "+" | _ => EmptyString end) ++
    JS.toFixed1 x ++ "%" /\
  (exists body, diff entry = body ++ "%") /\
  match x with
  | S754_finite _ m e => nearest_tenth m e (Z.abs n)
  | _ => n = 0%Z
  end /\
  (fixed_range x = true ->
   JS.toFixed1 x =
     (if is_negative x then "-" else EmptyString) ++
     string_of_list_ascii (JS.fixed1 (Z.to_N (Z.abs n)))).
Proof.
  intros x n entry.
  destruct (sign_of_diff x) as [Hpos [Hneg Hzero]].
  assert (Hnear : match x with
                  | S754_finite _ m e => nearest_tenth m e (Z.abs n)
                  | _ => n = 0%Z
                  end).
  { unfold n. destruct x as [s | s | | s m e]; try reflexivity.
    cbn [rounded_tenths]. pose proof (tenths_nearest m e) as Ht.
    destruct s; [rewrite Z.abs_opp|]; now rewrite Z.abs_eq by lia. }
  pose proof (diff_sign_NaN x) as HNaN.
  pose proof (insight_trend_diff_suffix prevAccuracy newAccuracy
                totalColsCount activeColsCount clk) as Hsuffix.
  fold entry in Hsuffix.
  unfold entry, newEntry in *. cbn [trend diff] in *. fold x in Hsuffix |- *.
  rewrite Hpos, Hneg, Hzero.
  split; [|split; [|split; [|split; [|split; [|split; [|split; [|split;
    [|split]]]]]]]].
  - destruct (diff_sign x) as [[| |]|]; split; intros H;
      try reflexivity; discriminate.
  - destruct (diff_sign x) as [[| |]|]; split; intros H;
      try reflexivity; discriminate.
  - destruct (diff_sign x) as [[| |]|]; split; intros H;
      try reflexivity; discriminate.
  - destruct (diff_sign x) as [[| |]|]; split; intros H;
      try reflexivity; discriminate.
  - destruct (diff_sign x) as [[| |]|]; split; intros H;
      try reflexivity; discriminate.
  - destruct (diff_sign x) as [[| |]|] eqn:E; split; intros H;
      try reflexivity; try discriminate.
    + now left.
    + destruct H as [H | H]; [discriminate|].
      apply HNaN in H. discriminate.
    + destruct H as [H | H]; [discriminate|].
      apply HNaN in H. discriminate.
    + right. now apply HNaN.
  - destruct (diff_sign x) as [[| |]|]; reflexivity.
  - rewrite <- Hpos. exact Hsuffix.
  - exact Hnear.
  - apply toFixed1_fixed.
Qed.

Lemma insight_trend_follows_rounded_diff_witness :
  let prevAccuracy := JS.parseFloat (JS.Str "82.0") in
  let newAccuracy := JS.parseFloat (JS.Str "84.5") in
  let x := JS.sub newAccuracy prevAccuracy in
  fixed_range x = true /\
  JS.toFixed1 x =
    (if is_negative x then "-" else EmptyString) ++
    string_of_list_ascii (JS.fixed1 (Z.to_N (Z.abs (rounded_tenths x)))) /\
  trend (newEntry prevAccuracy newAccuracy 10 7 noon) = "OPTIMIZED".
Proof.
  intros prevAccuracy newAccuracy x.
  destruct (insight_trend_follows_rounded_diff
              prevAccuracy newAccuracy 10 7 noon)
    as [_ [_ [_ [H1 [_ [_ [_ [_ [_ H7]]]]]]]]].
  split; [reflexivity|]. split.
  - apply H7. reflexivity.
  - apply H1. reflexivity.
Defined.

(** The scenarios of the specification. *)
Example scenario_A :
  let e := newEntry (JS.parseFloat (JS.Str "82.0"))
             (JS.parseFloat (JS.Str "84.5")) 10 7 noon in
  diff e = "+2.5%" /\ trend e = "OPTIMIZED" /\
  message e =
    "Optimization successful. Pruning 3 noisy vectors enhanced the focus on primary predictors.".
Proof. vm_compute. repeat split. Qed.

Example scenario_B :
  let e := newEntry (JS.parseFloat (JS.Str "90.0"))
             (JS.parseFloat (JS.Str "90.0")) 5 4 noon in
  diff e = "0.0%" /\ trend e = "STABLE".
Proof. vm_compute. repeat split. Qed.

Example scenario_C :
  let e := newEntry (JS.parseFloat (JS.Str "75.3"))
             (JS.parseFloat (JS.Str "70.1")) 10 7 noon in
  diff e = "-5.2%" /\ trend e = "DEGRADED".
Proof. vm_compute. repeat split. Qed.

(** ** Missing accuracies *)

Lemma newEntry_NaN (prevAccuracy newAccuracy : JS.number)
  (totalColsCount activeColsCount : Z) (clk : Clock) :
  JS.sub newAccuracy prevAccuracy = JS.NaN ->
  newEntry prevAccuracy newAccuracy totalColsCount activeColsCount clk =
  {| id := now clk;
     trend := "STABLE";
     diff := "NaN%";
     timestamp := timeString clk;
     message :=
       "Model weights recalculated. System remains stable with the current feature set." |}.
Proof. intros H. unfold newEntry. rewrite H. reflexivity. Qed.

Lemma sub_NaN_l (y : JS.number) : JS.sub JS.NaN y = JS.NaN.
Proof. reflexivity. Qed.

Lemma sub_NaN_r (x : JS.number) : JS.sub x JS.NaN = JS.NaN.
Proof. destruct x; reflexivity. Qed.

(** An accuracy that reads as NaN on either side, with nothing put in
    its place, is logged as "STABLE" with the label "NaN%". *)
Lemma NaN_accuracy_logged_stable (prevAccuracy newAccuracy : JS.number)
  (totalColsCount activeColsCount : Z) (clk : Clock) :
  prevAccuracy = JS.NaN \/ newAccuracy = JS.NaN ->
  let entry :=
    newEntry prevAccuracy newAccuracy totalColsCount activeColsCount clk in
  trend entry = "STABLE" /\ diff entry = "NaN%".
Proof.
  intros [-> | ->] entry; unfold entry.
  - rewrite newEntry_NaN; [split; reflexivity | apply sub_NaN_r].
  - rewrite newEntry_NaN; [split; reflexivity | apply sub_NaN_l].
Qed.

(** C8, as stated, fails.  When the response carries no accuracy, the
    entry is not the one computed from a substituted zero: with a
    previous accuracy of 82.0 the code logs "STABLE" with "NaN%", where
    zero in place of the missing value gives "DEGRADED" with "-82.0%".
    Likewise a previous accuracy that does not read as a number ("n/a")
    is kept as NaN: with a new accuracy of 84.5 the code logs "STABLE"
    with "NaN%", where zero gives "OPTIMIZED" with "+84.5%". *)
Lemma missing_accuracy_not_zeroed :
  (let closure := session ready_world in
   let data := sample_report JS.Undefined in
   let logged :=
     nth_error
       (insights (fst (handleRefine_settle closure (Some data) noon closure)))
       0 in
   let zeroed :=
     newEntry (zero_if_not_finite (accuracy_of (report closure)))
       (zero_if_not_finite (accuracy (stats data))) 3 2 noon in
   option_map trend logged = Some "STABLE" /\
   option_map diff logged = Some "NaN%" /\
   trend zeroed = "DEGRADED" /\
   diff zeroed = "-82.0%" /\
   option_map trend logged <> Some (trend zeroed) /\
   option_map diff logged <> Some (diff zeroed)) /\
  (let prev := Some (sample_report (JS.Str "n/a")) in
   let logged :=
     newEntry (prevAccuracy_of prev) (JS.parseFloat (JS.Str "84.5")) 3 2 noon in
   let zeroed :=
     newEntry (zero_if_not_finite (accuracy_of prev))
       (zero_if_not_finite (JS.Str "84.5")) 3 2 noon in
   trend logged = "STABLE" /\ diff logged = "NaN%" /\
   trend zeroed = "OPTIMIZED" /\ diff zeroed = "+84.5%" /\
   trend logged <> trend zeroed).
Proof. vm_compute. repeat split; discriminate. Qed.

(** C8, amended: the computation is total; for every pair of accuracy
    values the entry has one of the three trends and a label ending
    with "%".  When the previous accuracy is missing or otherwise falsy
    (undefined, null, zero, NaN, the empty string), zero is substituted
    for it and the entry is the one computed from that zero; any other
    previous accuracy is used as [parseFloat] reads it. *)
Theorem insight_total_zero_for_falsy_previous
  (r : option Report) (data : Report) (totalColsCount activeColsCount : Z)
  (clk : Clock) :
  let prevAccuracy := prevAccuracy_of r in
  let newAccuracy := JS.parseFloat (accuracy (stats data)) in
  let entry :=
    newEntry prevAccuracy newAccuracy totalColsCount activeColsCount clk in
  (trend entry = "OPTIMIZED" \/ trend entry = "DEGRADED" \/
   trend entry = "STABLE") /\
  (exists body, diff entry = body ++ "%") /\
  (JS.truthy (accuracy_of r) = false ->
   prevAccuracy = JS.zero /\
   entry = newEntry JS.zero newAccuracy totalColsCount activeColsCount clk) /\
  (JS.truthy (accuracy_of r) = true ->
   prevAccuracy = JS.parseFloat (accuracy_of r)).
Proof.
  intros prevAccuracy newAccuracy entry.
  split; [|split; [|split]].
  - unfold entry, newEntry. cbn [trend].
    destruct (positive_diff _); [auto|].
    destruct (negative_diff _); auto.
  - apply insight_trend_diff_suffix.
  - intros H.
    assert (Hp : prevAccuracy = JS.zero).
    { unfold prevAccuracy, prevAccuracy_of, JS.or_else. now rewrite H. }
    split; [exact Hp|]. unfold entry. now rewrite Hp.
  - intros H. unfold prevAccuracy, prevAccuracy_of, JS.or_else.
    now rewrite H.
Qed.

Lemma insight_total_zero_for_falsy_previous_witness :
  let data := sample_report (JS.Str "84.5%") in
  prevAccuracy_of None = JS.zero /\
  newEntry (prevAccuracy_of None) (JS.parseFloat (accuracy (stats data)))
    3 2 noon =
  newEntry JS.zero (JS.parseFloat (accuracy (stats data))) 3 2 noon /\
  prevAccuracy_of (Some data) = JS.parseFloat (JS.Str "84.5%").
Proof.
  intros data.
  destruct (insight_total_zero_for_falsy_previous None data 3 2 noon)
    as [_ [_ [Hfalsy _]]].
  destruct (insight_total_zero_for_falsy_previous (Some data) data 3 2 noon)
    as [_ [_ [_ Htruthy]]].
  split; [apply Hfalsy; reflexivity|].
  split; [apply Hfalsy; reflexivity|].
  apply Htruthy. reflexivity.
Defined.

(** ** Further invariants of the event loop *)

Section WorldInvariant.

Variable Q : World -> Prop.
Hypothesis Q_boot : Q boot.

Lemma world_invariant_from (f : World -> Event -> World) (evs : list Event) :
  (forall w ev, Q w -> Q (f w ev)) ->
  forall w, Q w -> Q (fold_left f evs w).
Proof.
  intros Hf. induction evs as [|ev evs IH]; intros w Hw; simpl.
  - exact Hw.
  - apply IH. now apply Hf.
Qed.

(** An invariant of every step holds in every reachable world. *)
Lemma run_world_invariant :
  (forall w ev, Q w -> Q (step w ev)) -> forall evs, Q (run evs).
Proof.
  intros Hstep evs. unfold run. now apply world_invariant_from.
Qed.

(** An invariant of every step the page offers holds in every world
    reached through the page. *)
Lemma run_ui_invariant :
  (forall w ev, Q w -> rendered (session w) ev = true -> Q (step w ev)) ->
  forall evs, Q (run_ui evs).
Proof.
  intros Hstep evs. unfold run_ui. apply world_invariant_from; [|exact Q_boot].
  intros w ev Hw. unfold step_ui.
  destruct (rendered (session w) ev) eqn:Hr; [now apply Hstep | exact Hw].
Qed.

End WorldInvariant.

(** Case analysis on one step of the event loop: the new session is the
    old one, or the result of one handler phase. *)
Lemma step_session_cases (w : World) (ev : Event) :
  session (step w ev) = session w \/
  (exists f, ev = UploadFile (Some f) /\
     session (step w ev) = setLoading true (setFile (Some f) (session w))) \/
  (exists c, ev = ToggleColumn c /\
     session (step w ev) = toggleColumn c (session w)) \/
  (exists t, ev = ChangeTarget t /\
     session (step w ev) = handleTargetChange t (session w)) \/
  (exists n, ev = ToggleDropdown n /\
     session (step w ev) = toggleDropdown n (session w)) \/
  (ev = RequestRecalibration /\ refine_rejected (session w) = false /\
     session (step w ev) = setLoading true (session w)) \/
  (exists i outcome clk, ev = Settle i outcome clk /\
     nth_error (inflight w) i = Some AwaitUpload /\
     session (step w ev) = fst (processFile_settle outcome clk (session w))) \/
  (exists i outcome clk closure, ev = Settle i outcome clk /\
     nth_error (inflight w) i = Some (AwaitRefine closure) /\
     session (step w ev) =
       fst (handleRefine_settle closure outcome clk (session w))).
Proof.
  destruct ev as [f | c | t | n | | i outcome clk]; simpl.
  - destruct f as [f|]; simpl; [right; left; eauto | now left].
  - right; right; left; eauto.
  - right; right; right; left; eauto.
  - right; right; right; right; left; eauto.
  - destruct (refine_rejected (session w)) eqn:Hr.
    + rewrite (handleRefine_begin_rejected _ Hr). now left.
    + destruct (handleRefine_begin_posts _ Hr) as [f [_ ->]]. simpl.
      right; right; right; right; right; left. auto.
  - destruct (nth_error (inflight w) i) as [[|closure]|] eqn:Hn.
    + right; right; right; right; right; right; left.
      exists i, outcome, clk. auto.
    + right; right; right; right; right; right; right.
      exists i, outcome, clk, closure. auto.
    + now left.
Qed.

(** Cases of a step, simplified handler by handler. *)
Ltac step_cases w ev :=
  destruct (step_session_cases w ev)
    as [Hs | [[f [Hev Hs]] | [[c [Hev Hs]] | [[t [Hev Hs]] | [[n [Hev Hs]]
       | [[Hev [Hrej Hs]] | [[i [outcome [clk [Hev [Hnth Hs]]]]]
       | [i [outcome [clk [closure [Hev [Hnth Hs]]]]]]]]]]]]];
  rewrite Hs; clear Hs.

Lemma run_ui_app (evs more : list Event) :
  run_ui (evs ++ more) = fold_left step_ui more (run_ui evs).
Proof. unfold run_ui. apply fold_left_app. Qed.

(** ** The file that is held *)

Lemma file_step (w : World) (ev : Event) :
  file (session (step w ev)) =
  match ev with
  | UploadFile (Some f) => Some f
  | _ => file (session w)
  end.
Proof.
  destruct ev as [f | c | t | n | | i outcome clk]; simpl; try reflexivity.
  - destruct f; reflexivity.
  - unfold handleRefine_begin.
    destruct (file (session w)) eqn:Hf;
      [destruct (no_target (selectedTarget (session w)))|];
      simpl; now rewrite ?Hf.
  - destruct (nth_error (inflight w) i) as [[|closure]|]; [| |reflexivity].
    + destruct outcome as [[data|a|]|]; try reflexivity.
      simpl. now destruct (column_diagnostics a).
    + unfold handleRefine_settle.
      destruct outcome as [[data|a|]|]; try reflexivity.
      destruct (report closure); reflexivity.
Qed.

(** X2: the file held is always the one of the last upload that carried
    a file, whether or not its analysis succeeded, failed or is still in
    flight; no other event touches it. *)
Theorem file_is_last_upload (evs : list Event) :
  file (session (run evs)) = last_upload evs.
Proof.
  unfold run, last_upload.
  assert (Hfrom : forall w acc,
             file (session w) = acc ->
             file (session (fold_left step evs w)) =
             fold_left
               (fun acc ev =>
                  match ev with
                  | UploadFile (Some f) => Some f
                  | _ => acc
                  end) evs acc).
  { induction evs as [|ev evs IH]; intros w acc Hw; simpl; [exact Hw|].
    apply IH. rewrite file_step, Hw. reflexivity. }
  now apply Hfrom.
Qed.

(** ** What a report brings with it *)

Lemma held_with_file_step (w : World) (ev : Event) :
  held_with_file w -> held_with_file (step w ev).
Proof.
  intros [Hfile Hreport].
  destruct (file (session w)) as [f0|] eqn:Hf.
  - assert (Hf' : file (session (step w ev)) <> None).
    { rewrite file_step, Hf. destruct ev as [[f|]| | | | |]; discriminate. }
    split; intros _; exact Hf'.
  - assert (Hin : inflight w = []).
    { destruct (inflight w); [reflexivity|].
      exfalso. apply Hfile; [discriminate | reflexivity]. }
    assert (Hr : report (session w) = None).
    { destruct (report (session w)); [|reflexivity].
      exfalso. apply Hreport; [discriminate | reflexivity]. }
    destruct ev as [f | c | t | n | | i outcome clk].
    + destruct f as [f|]; unfold held_with_file; simpl.
      * split; discriminate.
      * rewrite Hin, Hr. split; intros H; now contradiction H.
    + unfold held_with_file. simpl. rewrite Hin, Hr.
      split; intros H; now contradiction H.
    + unfold held_with_file. simpl. rewrite Hin, Hr.
      split; intros H; now contradiction H.
    + unfold held_with_file. simpl. rewrite Hin, Hr.
      split; intros H; now contradiction H.
    + unfold held_with_file. simpl. unfold handleRefine_begin.
      rewrite Hf. simpl. rewrite Hin, Hr.
      split; intros H; now contradiction H.
    + unfold held_with_file. simpl. rewrite Hin.
      destruct i; simpl; rewrite Hin, Hr;
        split; intros H; now contradiction H.
Qed.

Lemma untargeted_step (w : World) (ev : Event) :
  untargeted w -> untargeted (step w ev).
Proof.
  intros [Htarget Hlog].
  assert (Hsame : forall w',
             selectedTarget (session w') = selectedTarget (session w) ->
             insights (session w') = insights (session w) ->
             report (session w') = report (session w) ->
             (forall c, In (AwaitRefine c) (inflight w') ->
                        In (AwaitRefine c) (inflight w)) ->
             untargeted w').
  { intros w' Ht Hi Hr Hin. unfold untargeted, unread_body.
    rewrite Ht, Hi, Hr. split; [|exact Hlog].
    intros H. destruct (Htarget H) as [Hnil Hno]. split; [exact Hnil|].
    intros c Hc. apply (Hno c). now apply Hin. }
  destruct ev as [f | c | t | n | | i outcome clk].
  - apply Hsame; try (destruct f; reflexivity).
    intros c Hc. destruct f; simpl in Hc; [|exact Hc].
    apply in_app_or in Hc as [Hc | [Hc | []]]; [exact Hc | discriminate].
  - now apply Hsame.
  - unfold untargeted. simpl. split; [discriminate | exact Hlog].
  - now apply Hsame.
  - destruct (refine_rejected (session w)) eqn:Hr.
    + apply Hsame; simpl; rewrite (handleRefine_begin_rejected _ Hr); auto.
    + destruct (handleRefine_begin_posts _ Hr) as [f [Hf Hb]].
      unfold refine_rejected in Hr. rewrite Hf in Hr.
      unfold untargeted. simpl. rewrite Hb. simpl. split; [|exact Hlog].
      intros Hn. rewrite Hn in Hr. discriminate.
  - simpl. destruct (nth_error (inflight w) i) as [[|closure]|] eqn:Hn;
      [| |now apply Hsame].
    + destruct outcome as [[data|a|]|].
      * unfold untargeted. simpl. split; discriminate.
      * unfold untargeted, unread_body. simpl.
        destruct (column_diagnostics a); simpl.
        -- split; [|intros _; right; now exists a].
           intros H. destruct (Htarget H) as [Hnil Hno]. split; [exact Hnil|].
           intros c0 Hc. apply (Hno c0). now apply In_remove_nth in Hc.
        -- split; [|intros _; right; now exists a].
           intros H. destruct (Htarget H) as [Hnil Hno]. split; [exact Hnil|].
           intros c0 Hc. apply (Hno c0). now apply In_remove_nth in Hc.
      * unfold untargeted. simpl. split; [|intros _; now left].
        intros H. destruct (Htarget H) as [Hnil Hno]. split; [exact Hnil|].
        intros c0 Hc. apply (Hno c0). now apply In_remove_nth in Hc.
      * apply Hsame; try reflexivity.
        intros c0 Hc. now apply In_remove_nth in Hc.
    + assert (Ht : selectedTarget (session w) <> None).
      { intros H. destruct (Htarget H) as [_ Hno].
        apply (Hno closure). eapply nth_error_In. exact Hn. }
      unfold handleRefine_settle.
      destruct outcome as [[data|a|]|];
        [destruct (report closure) as [r|]| | |].
      * unfold untargeted.
        cbn [land session fst insights selectedTarget setLoading setReport
             setInsights].
        split; [intros H; now contradiction Ht|].
        rewrite firstn_cons. discriminate.
      * apply Hsame; try reflexivity.
        intros c0 Hc. now apply In_remove_nth in Hc.
      * apply Hsame; try reflexivity.
        intros c0 Hc. now apply In_remove_nth in Hc.
      * apply Hsame; try reflexivity.
        intros c0 Hc. now apply In_remove_nth in Hc.
      * apply Hsame; try reflexivity.
        intros c0 Hc. now apply In_remove_nth in Hc.
Qed.



(** ** Through the page *)

Lemma report_kept_on_page (w : World) (ev : Event) :
  on_page w -> rendered (session w) ev = true ->
  report (session w) <> None -> report (session (step w ev)) <> None.
Proof.
  intros [_ Hw] Hr Hsome. specialize (Hw Hsome).
  destruct (report (session w)) as [r|] eqn:Hrep; [|congruence].
  destruct ev as [f | c | t | n | | i outcome clk]; simpl in Hr;
    rewrite ?Hrep in Hr; simpl; rewrite ?Hrep; try discriminate.
  - rewrite Bool.andb_false_r in Hr. discriminate.
  - unfold handleRefine_begin.
    destruct (file (session w)); [|simpl; congruence].
    destruct (no_target (selectedTarget (session w))); simpl; congruence.
  - destruct (nth_error (inflight w) i) as [p|] eqn:Hn; [|congruence].
    destruct (Hw p (nth_error_In _ _ Hn)) as [closure ->].
    unfold handleRefine_settle.
    destruct outcome as [[data|a|]|]; simpl; try congruence.
    destruct (report closure); simpl; congruence.
Qed.

Lemma on_page_step (w : World) (ev : Event) :
  on_page w -> rendered (session w) ev = true -> on_page (step w ev).
Proof.
  intros Hpage Hr. pose proof Hpage as [Hp Hw].
  destruct (report (session w)) as [r|] eqn:Hrep.
  - (* a report is held: only recalibrations are in flight *)
    assert (Hsome : report (session w) <> None) by congruence.
    pose proof (report_kept_on_page w ev Hpage Hr Hsome) as Hkept.
    specialize (Hw Hsome).
    split; [intros Hnone; contradiction|].
    intros _ p Hin.
    destruct ev as [f | c | t | n | | i outcome clk]; simpl in Hr, Hin;
      rewrite ?Hrep in Hr; try (now apply Hw).
    + rewrite Bool.andb_false_r in Hr. discriminate.
    + destruct (handleRefine_begin (session w)) as [s1 [req|]];
        simpl in Hin; [|now apply Hw].
      apply in_app_or in Hin as [Hin | [<- | []]]; [now apply Hw|].
      now eexists.
    + destruct (nth_error (inflight w) i) as [[|closure]|];
        simpl in Hin; [| |now apply Hw];
        apply Hw; now apply In_remove_nth in Hin.
  - (* no report yet: the state is pristine *)
    destruct (Hp Hrep) as [Ht [Hc [Hi [Hd Hfl]]]].
    destruct ev as [f | c | t | n | | i outcome clk]; simpl in Hr;
      rewrite ?Hrep in Hr; try discriminate.
    + rewrite Bool.andb_true_r in Hr. apply Bool.negb_true_iff in Hr.
      destruct Hfl as [[Hin _] | [_ Hl]]; [|congruence].
      split.
      * destruct f as [f|]; simpl; intros _.
        -- rewrite Hin. repeat split; try assumption. right. now split.
        -- repeat split; try assumption. left. now split.
      * intros Hafter. exfalso. apply Hafter.
        destruct f; simpl; exact Hrep.
    + destruct Hfl as [[Hin Hl] | [Hin Hl]].
      * assert (Hsame : step w (Settle i outcome clk) = w).
        { simpl. rewrite Hin. now destruct i. }
        rewrite Hsame. now split.
      * destruct i as [|i].
        -- simpl. rewrite Hin. cbn [nth_error]. unfold land.
           rewrite Hin. cbn [remove_nth firstn skipn app].
           destruct outcome as [[data|a|]|]; split.
           ++ intros H. discriminate H.
           ++ intros _ p [].
           ++ intros H. exfalso. revert H. simpl.
              destruct (column_diagnostics a); discriminate.
           ++ intros _ p [].
           ++ intros _. simpl. repeat split; try assumption.
              left. now split.
           ++ intros _ p [].
           ++ intros _. simpl. repeat split; try assumption.
              left. now split.
           ++ intros _ p [].
        -- assert (Hsame : step w (Settle (S i) outcome clk) = w).
           { simpl. rewrite Hin. now destruct i. }
           rewrite Hsame. now split.
Qed.

Lemma on_page_ui (evs : list Event) : on_page (run_ui evs).
Proof.
  apply (run_ui_invariant on_page).
  - split.
    + intros _. repeat split. left. now split.
    + intros _ p [].
  - apply on_page_step.
Qed.

(** X4: through the page, uploads are single-flight: as long as no
    report is held, at most one request is in flight, it is an upload,
    and the spinner is on exactly while it is in flight. *)
Theorem upload_single_flight_through_page (evs : list Event) :
  report (session (run_ui evs)) = None ->
  (inflight (run_ui evs) = [] /\ loading (session (run_ui evs)) = false) \/
  (inflight (run_ui evs) = [AwaitUpload] /\
   loading (session (run_ui evs)) = true).
Proof.
  intros Hr. now apply (proj1 (on_page_ui evs)).
Qed.

Lemma upload_single_flight_through_page_witness :
  (inflight (run_ui [UploadFile (Some "a.csv"); UploadFile (Some "b.csv")])
     = [] /\
   loading (session (run_ui [UploadFile (Some "a.csv");
                             UploadFile (Some "b.csv")])) = false) \/
  (inflight (run_ui [UploadFile (Some "a.csv"); UploadFile (Some "b.csv")])
     = [AwaitUpload] /\
   loading (session (run_ui [UploadFile (Some "a.csv");
                             UploadFile (Some "b.csv")])) = true).
Proof.
  apply (upload_single_flight_through_page
           [UploadFile (Some "a.csv"); UploadFile (Some "b.csv")]).
  reflexivity.
Defined.

(** X5: through the page, nothing but the upload can happen before the
    first report: until then no target is set, no column is selected,
    the log is empty and no panel is open. *)
Theorem nothing_before_first_report (evs : list Event) :
  report (session (run_ui evs)) = None ->
  selectedTarget (session (run_ui evs)) = None /\
  selectedCols (session (run_ui evs)) = [] /\
  insights (session (run_ui evs)) = [] /\
  openDropdown (session (run_ui evs)) = None.
Proof.
  intros Hr.
  destruct (proj1 (on_page_ui evs) Hr) as [Ht [Hc [Hi [Hd _]]]].
  auto.
Qed.

Lemma nothing_before_first_report_witness :
  let evs := [ChangeTarget "age"; ToggleColumn "age"; ToggleDropdown "target";
              UploadFile (Some "a.csv"); RequestRecalibration;
              Settle 0 None noon] in
  selectedTarget (session (run_ui evs)) = None /\
  selectedCols (session (run_ui evs)) = [] /\
  insights (session (run_ui evs)) = [] /\
  openDropdown (session (run_ui evs)) = None.
Proof.
  apply (nothing_before_first_report
           [ChangeTarget "age"; ToggleColumn "age"; ToggleDropdown "target";
            UploadFile (Some "a.csv"); RequestRecalibration;
            Settle 0 None noon]).
  reflexivity.
Defined.

(** ** The log and the report *)

(** A body without [stats] and a target picked afterwards. *)
Lemma unread_upload_reachable :
  let evs := [UploadFile (Some "data.csv");
              Settle 0
                (Resolved
                   (WithoutStats
                      (analysis (sample_report (JS.Str "82.0%"))))) noon] in
  report (session (run_ui evs)) <> None /\
  insights (session (run_ui evs)) = [] /\
  selectedTarget (session (run_ui evs)) = None /\
  alerts (run_ui evs) = ["Analysis failed."].
Proof. vm_compute. repeat split. discriminate. Qed.



(** ** One data set per page *)

Lemma step_ui_with_report (w : World) (ev : Event) :
  on_page w -> report (session w) <> None ->
  on_page (step_ui w ev) /\
  report (session (step_ui w ev)) <> None /\
  file (session (step_ui w ev)) = file (session w).
Proof.
  intros Hpage Hr. unfold step_ui.
  destruct (rendered (session w) ev) eqn:Hrend;
    [|split; [exact Hpage | split; [exact Hr | reflexivity]]].
  split; [now apply on_page_step|].
  split; [now apply report_kept_on_page|].
  rewrite file_step. destruct ev as [[f|]| | | | |]; try reflexivity.
  simpl in Hrend. destruct (report (session w)); [|congruence].
  rewrite Bool.andb_false_r in Hrend. discriminate.
Qed.

(** X23: one data set per page.  Through the page, once a report is
    held the drop zone is gone: an upload is no longer accepted, no
    upload is in flight, only recalibrations are, and the file held
    stays the one of the upload that brought the report, whatever
    happens next. *)
Theorem one_data_set_per_page (evs : list Event) :
  report (session (run_ui evs)) <> None ->
  (forall f, step_ui (run_ui evs) (UploadFile f) = run_ui evs) /\
  ~ In AwaitUpload (inflight (run_ui evs)) /\
  (forall more,
     file (session (run_ui (evs ++ more))) = file (session (run_ui evs)) /\
     report (session (run_ui (evs ++ more))) <> None).
Proof.
  intros Hr. split; [|split].
  - intros f. unfold step_ui. simpl.
    destruct (report (session (run_ui evs))); [|congruence].
    now rewrite Bool.andb_false_r.
  - intros Hin. destruct (proj2 (on_page_ui evs) Hr _ Hin) as [c Hc].
    discriminate.
  - intros more. rewrite run_ui_app.
    pose proof (on_page_ui evs) as Hpage. revert Hpage Hr.
    generalize (run_ui evs) as w.
    induction more as [|ev more IH]; intros w Hpage Hr; [now split|].
    simpl. destruct (step_ui_with_report w ev Hpage Hr) as [Hpage' [Hr' Hf]].
    destruct (IH _ Hpage' Hr') as [IHf IHr]. split; [congruence | exact IHr].
Qed.

Lemma one_data_set_per_page_witness :
  let evs := [UploadFile (Some "data.csv");
              Settle 0 (Some (sample_report (JS.Str "82.0%"))) noon] in
  let more := [UploadFile (Some "other.csv"); RequestRecalibration;
               UploadFile (Some "third.csv")] in
  file (session (run_ui (evs ++ more))) = file (session (run_ui evs)) /\
  report (session (run_ui (evs ++ more))) <> None.
Proof.
  apply (one_data_set_per_page
           [UploadFile (Some "data.csv");
            Settle 0 (Some (sample_report (JS.Str "82.0%"))) noon]).
  discriminate.
Defined.



(** ** The feature selection *)

Lemma includes_false_without (x : string) (arr : list string) :
  includes x arr = false -> without x arr = arr.
Proof.
  unfold includes, without. induction arr as [|a arr IH]; simpl; [reflexivity|].
  intros H. apply Bool.orb_false_iff in H as [Hxa Hrest].
  rewrite String.eqb_sym, Hxa. simpl. now rewrite IH.
Qed.

Lemma without_app (x : string) (a b : list string) :
  without x (a ++ b)%list = (without x a ++ without x b)%list.
Proof. unfold without. apply filter_app. Qed.

Lemma includes_without_same (x : string) (arr : list string) :
  includes x (without x arr) = false.
Proof.
  destruct (includes x (without x arr)) eqn:H; [|reflexivity].
  apply includes_In in H. now apply without_excludes in H.
Qed.

Lemma includes_iff (x : string) (arr : list string) :
  includes x arr = true <-> In x arr.
Proof.
  unfold includes. rewrite existsb_exists. split.
  - intros [y [Hy Heq]]. apply String.eqb_eq in Heq. now subst.
  - intros H. exists x. split; [exact H | apply String.eqb_refl].
Qed.

Lemma without_iff (x y : string) (arr : list string) :
  In y (without x arr) <-> In y arr /\ y <> x.
Proof.
  unfold without. rewrite filter_In, Bool.negb_true_iff, String.eqb_neq.
  reflexivity.
Qed.

Lemma NoDup_without (x : string) (arr : list string) :
  NoDup arr -> NoDup (without x arr).
Proof. apply NoDup_filter. Qed.

Lemma NoDup_snoc (x : string) (arr : list string) :
  NoDup arr -> ~ In x arr -> NoDup (arr ++ [x])%list.
Proof.
  intros Hn Hx. apply NoDup_app; [exact Hn | repeat constructor; simpl; tauto|].
  intros y Hy [<- | []]. contradiction.
Qed.

Lemma NoDup_step (w : World) (ev : Event) :
  (forall i data clk, ev = Settle i (Some data) clk -> unique_columns data) ->
  NoDup (selectedCols (session w)) ->
  NoDup (selectedCols (session (step w ev))).
Proof.
  intros Huniq Hw. step_cases w ev; try exact Hw.
  - simpl. destruct (includes c (selectedCols (session w))) eqn:Hc.
    + now apply NoDup_without.
    + apply NoDup_snoc; [exact Hw|]. rewrite <- includes_iff. congruence.
  - simpl. now apply NoDup_without.
  - destruct outcome as [[data|a|]|]; simpl; try exact Hw.
    + apply NoDup_without. now apply (Huniq i data clk).
    + destruct (column_diagnostics a); [constructor | exact Hw].
  - unfold handleRefine_settle.
    destruct outcome as [[data|a|]|]; try exact Hw.
    destruct (report closure); exact Hw.
Qed.

(** X6: when the column identifiers of every response are pairwise
    distinct, no reachable state lists a column twice in the feature
    selection, whatever is toggled, whichever target is chosen and in
    whatever order requests settle. *)
Theorem selection_never_lists_twice (evs : list Event) :
  unique_responses evs -> NoDup (selectedCols (session (run evs))).
Proof.
  unfold run.
  assert (Hfrom : forall w,
             unique_responses evs -> NoDup (selectedCols (session w)) ->
             NoDup (selectedCols (session (fold_left step evs w)))).
  { induction evs as [|ev evs IH]; intros w Hu Hw; simpl; [exact Hw|].
    apply IH.
    - intros i data clk Hin. apply (Hu i data clk). now right.
    - apply NoDup_step; [|exact Hw].
      intros i data clk ->. apply (Hu i data clk). now left. }
  intros Hu. apply Hfrom; [exact Hu | constructor].
Qed.

Lemma selection_never_lists_twice_witness :
  NoDup (selectedCols (session (run
    [UploadFile (Some "data.csv");
     Settle 0 (Some (sample_report (JS.Str "82.0%"))) noon;
     ToggleColumn "churn"; ToggleColumn "age"; ToggleColumn "age"]))).
Proof.
  apply (selection_never_lists_twice
    [UploadFile (Some "data.csv");
     Settle 0 (Some (sample_report (JS.Str "82.0%"))) noon;
     ToggleColumn "churn"; ToggleColumn "age"; ToggleColumn "age"]).
  intros i data clk Hin. simpl in Hin.
  destruct Hin as [H | [H | [H | [H | [H | []]]]]]; try discriminate.
  injection H as _ <- _. unfold unique_columns. simpl.
  repeat constructor; simpl; intuition discriminate.
Defined.

(** X7: toggling the same column twice.  Membership of every column is
    as before; a column that was not selected leaves the state exactly
    as it was; a column that was selected ends up last, so the order of
    the selection is not restored, only its content. *)
Theorem toggleColumn_twice (c : string) (s : Session) :
  (forall d,
     includes d (selectedCols (toggleColumn c (toggleColumn c s))) =
     includes d (selectedCols s)) /\
  (includes c (selectedCols s) = false ->
   toggleColumn c (toggleColumn c s) = s) /\
  (includes c (selectedCols s) = true ->
   selectedCols (toggleColumn c (toggleColumn c s)) =
   (without c (selectedCols s) ++ [c])%list) /\
  (NoDup (selectedCols s) ->
   Permutation (selectedCols (toggleColumn c (toggleColumn c s)))
     (selectedCols s)).
Proof.
  assert (Hin : includes c (selectedCols s) = true ->
                selectedCols (toggleColumn c (toggleColumn c s)) =
                (without c (selectedCols s) ++ [c])%list).
  { intros Hc. simpl. rewrite Hc, includes_without_same. reflexivity. }
  assert (Hout : includes c (selectedCols s) = false ->
                 selectedCols (toggleColumn c (toggleColumn c s)) =
                 selectedCols s).
  { intros Hc. simpl. rewrite Hc.
    assert (Hi : includes c (selectedCols s ++ [c])%list = true).
    { apply includes_iff, in_or_app. right. now left. }
    rewrite Hi, without_app, (includes_false_without _ _ Hc). simpl.
    rewrite String.eqb_refl. simpl. apply List.app_nil_r. }
  split; [|split; [|split]].
  - intros d. destruct (includes c (selectedCols s)) eqn:Hc.
    + rewrite (Hin eq_refl).
      apply Bool.eq_true_iff_eq. rewrite !includes_iff, in_app_iff, without_iff.
      simpl. apply includes_iff in Hc.
      destruct (string_dec d c) as [-> | Hne]; intuition congruence.
    + now rewrite (Hout eq_refl).
  - intros Hc. specialize (Hout Hc). destruct s. simpl in *.
    unfold toggleColumn, setSelectedCols. simpl. f_equal. exact Hout.
  - exact Hin.
  - intros Hn. destruct (includes c (selectedCols s)) eqn:Hc.
    + rewrite (Hin eq_refl). apply NoDup_Permutation.
      * apply NoDup_snoc; [now apply NoDup_without|].
        rewrite without_iff. tauto.
      * exact Hn.
      * intros d. rewrite in_app_iff, without_iff. simpl.
        apply includes_iff in Hc.
        destruct (string_dec d c) as [-> | Hne]; intuition congruence.
    + now rewrite (Hout eq_refl).
Qed.

Lemma toggleColumn_twice_witness :
  toggleColumn "city" (toggleColumn "city" (session ready_world)) =
    session ready_world /\
  selectedCols (toggleColumn "age" (toggleColumn "age" (session ready_world))) =
    ["plan"; "age"] /\
  Permutation
    (selectedCols (toggleColumn "age" (toggleColumn "age" (session ready_world))))
    (selectedCols (session ready_world)).
Proof.
  split; [|split].
  - apply (toggleColumn_twice "city" (session ready_world)). reflexivity.
  - apply (toggleColumn_twice "age" (session ready_world)). reflexivity.
  - apply (toggleColumn_twice "age" (session ready_world)).
    repeat constructor; simpl; intuition discriminate.
Defined.

Lemma without_without_same (x : string) (arr : list string) :
  without x (without x arr) = without x arr.
Proof. apply includes_false_without, includes_without_same. Qed.

Lemma without_comm (x y : string) (arr : list string) :
  without x (without y arr) = without y (without x arr).
Proof.
  unfold without. induction arr as [|a arr IH]; simpl; [reflexivity|].
  destruct (String.eqb a x) eqn:Hx, (String.eqb a y) eqn:Hy; simpl;
    rewrite ?Hx, ?Hy; simpl; now rewrite ?IH.
Qed.

(** X8: choosing a target a second time changes nothing; the selection
    only ever shrinks under a target change; and a former target is not
    put back among the features when another target is chosen: after
    two changes neither column is selected, in whichever order the two
    were chosen. *)
Theorem handleTargetChange_composes (t t' : string) (s : Session) :
  handleTargetChange t (handleTargetChange t s) = handleTargetChange t s /\
  incl (selectedCols (handleTargetChange t s)) (selectedCols s) /\
  includes t (selectedCols (handleTargetChange t' (handleTargetChange t s)))
    = false /\
  includes t' (selectedCols (handleTargetChange t' (handleTargetChange t s)))
    = false /\
  selectedCols (handleTargetChange t' (handleTargetChange t s)) =
  selectedCols (handleTargetChange t (handleTargetChange t' s)).
Proof.
  split; [|split; [|split; [|split]]].
  - unfold handleTargetChange, setOpenDropdown, setSelectedCols,
      setSelectedTarget. simpl. now rewrite without_without_same.
  - intros x Hx. simpl in Hx. now apply without_iff in Hx.
  - simpl. rewrite without_comm. apply includes_without_same.
  - simpl. apply includes_without_same.
  - simpl. apply without_comm.
Qed.

(** ** The panels *)

(** X9: clicking the same panel header twice.  When the panel was open
    or every panel was closed, the state is as before; when another
    panel was open, every panel ends up closed.  No other cell of the
    state is touched. *)
Theorem toggleDropdown_twice (name : string) (s : Session) :
  openDropdown (toggleDropdown name (toggleDropdown name s)) =
    match openDropdown s with
    | Some d => if String.eqb d name then Some d else None
    | None => None
    end /\
  setOpenDropdown (openDropdown s)
    (toggleDropdown name (toggleDropdown name s)) = s.
Proof.
  split.
  - simpl. destruct (openDropdown s) as [d|]; simpl.
    + destruct (String.eqb d name) eqn:Hd; simpl.
      * apply String.eqb_eq in Hd. now subst.
      * now rewrite String.eqb_refl.
    + now rewrite String.eqb_refl.
  - destruct s. reflexivity.
Qed.

(** ** What recalibration leaves alone *)

(** X10: what can change the target and the feature selection.  The
    target is changed only by a target change or by an upload whose
    response was complete.  The selection is changed only by a toggle,
    by a target change, by such an upload, or by an upload whose
    response came without [stats] and without columns, which empties
    it.  In particular no recalibration, posted or settled, touches
    either: the target the server reports back in a recalibration
    response is ignored. *)
Theorem selection_changed_only_by (w : World) (ev : Event) :
  (selectedTarget (session (step w ev)) <> selectedTarget (session w) ->
   (exists t, ev = ChangeTarget t) \/
   (exists i data clk,
      ev = Settle i (Some data) clk /\
      nth_error (inflight w) i = Some AwaitUpload)) /\
  (selectedCols (session (step w ev)) <> selectedCols (session w) ->
   (exists c, ev = ToggleColumn c) \/
   (exists t, ev = ChangeTarget t) \/
   (exists i data clk,
      ev = Settle i (Some data) clk /\
      nth_error (inflight w) i = Some AwaitUpload) \/
   (exists i a clk,
      ev = Settle i (Resolved (WithoutStats a)) clk /\
      nth_error (inflight w) i = Some AwaitUpload /\
      column_diagnostics a = [] /\
      selectedCols (session (step w ev)) = [])).
Proof.
  split.
  - step_cases w ev; intros H; try (now contradiction H).
    + left. now exists t.
    + destruct outcome as [[data|a|]|]; simpl in H.
      * right. exists i, data, clk. now split.
      * destruct (column_diagnostics a); now contradiction H.
      * now contradiction H.
      * now contradiction H.
    + exfalso. unfold handleRefine_settle in H.
      destruct outcome as [[data|a|]|]; [destruct (report closure)| | |];
        simpl in H; now contradiction H.
  - step_cases w ev; intros H; try (now contradiction H).
    + left. now exists c.
    + right. left. now exists t.
    + destruct outcome as [[data|a|]|]; simpl in H.
      * right. right. left. exists i, data, clk. now split.
      * right. right. right. exists i, a, clk.
        destruct (column_diagnostics a) eqn:Hd; simpl in *.
        -- rewrite ?Hd. repeat split; assumption.
        -- now contradiction H.
      * now contradiction H.
      * now contradiction H.
    + exfalso. unfold handleRefine_settle in H.
      destruct outcome as [[data|a|]|]; [destruct (report closure)| | |];
        simpl in H; now contradiction H.
Qed.

Lemma selection_changed_only_by_witness :
  ((exists c, ToggleColumn "age" = ToggleColumn c) \/
   (exists t, ToggleColumn "age" = ChangeTarget t) \/
   (exists i data clk,
      ToggleColumn "age" = Settle i (Some data) clk /\
      nth_error (inflight ready_world) i = Some AwaitUpload) \/
   (exists i a clk,
      ToggleColumn "age" = Settle i (Resolved (WithoutStats a)) clk /\
      nth_error (inflight ready_world) i = Some AwaitUpload /\
      column_diagnostics a = [] /\
      selectedCols (session (step ready_world (ToggleColumn "age"))) = [])) /\
  ((exists t, ChangeTarget "plan" = ChangeTarget t) \/
   (exists i data clk,
      ChangeTarget "plan" = Settle i (Some data) clk /\
      nth_error (inflight ready_world) i = Some AwaitUpload)).
Proof.
  split.
  - apply (selection_changed_only_by ready_world (ToggleColumn "age")).
    discriminate.
  - apply (selection_changed_only_by ready_world (ChangeTarget "plan")).
    discriminate.
Defined.

(** ** The spinner *)

Lemma length_remove_nth {A} (i : nat) (l : list A) :
  (i < List.length l)%nat ->
  (List.length (remove_nth i l) + 1 = List.length l)%nat.
Proof.
  intros Hi. unfold remove_nth.
  rewrite length_app, length_firstn, length_skipn. lia.
Qed.

(** Two recalibrations in flight at once. *)
Lemma two_in_flight :
  List.length (inflight (step busy_world RequestRecalibration)) = 2%nat.
Proof. reflexivity. Qed.

(** X11: the spinner is a flag, not a count.  The settlement of any
    request in flight, whatever its outcome, lowers it and takes
    exactly that request out of flight; so when more than one request
    was in flight, the spinner is off while a request is still
    pending. *)
Theorem settlement_lowers_spinner (w : World) (i : nat)
  (outcome : Outcome) (clk : Clock) :
  (i < List.length (inflight w))%nat ->
  loading (session (step w (Settle i outcome clk))) = false /\
  (List.length (inflight (step w (Settle i outcome clk))) + 1 =
   List.length (inflight w))%nat /\
  ((1 < List.length (inflight w))%nat ->
   inflight (step w (Settle i outcome clk)) <> []).
Proof.
  intros Hi.
  assert (Hlen : (List.length (inflight (step w (Settle i outcome clk))) + 1 =
                  List.length (inflight w))%nat).
  { simpl. destruct (nth_error (inflight w) i) as [[|closure]|] eqn:Hn.
    - simpl. now apply length_remove_nth.
    - simpl. now apply length_remove_nth.
    - apply nth_error_None in Hn. lia. }
  split; [|split].
  - simpl. destruct (nth_error (inflight w) i) as [[|closure]|] eqn:Hn.
    + destruct outcome as [[data|a|]|]; reflexivity.
    + unfold handleRefine_settle.
      destruct outcome as [[data|a|]|]; [destruct (report closure)| | |];
        reflexivity.
    + apply nth_error_None in Hn. lia.
  - exact Hlen.
  - intros Hmany Hnil. rewrite Hnil in Hlen. simpl in Hlen. lia.
Qed.

Lemma settlement_lowers_spinner_witness :
  let w := step busy_world RequestRecalibration in
  (1 < List.length (inflight w))%nat /\
  loading (session (step w (Settle 0 None noon))) = false /\
  inflight (step w (Settle 0 None noon)) <> [].
Proof.
  assert (Hi : (0 < List.length
                      (inflight (step busy_world RequestRecalibration)))%nat)
    by (rewrite two_in_flight; lia).
  destruct (settlement_lowers_spinner
              (step busy_world RequestRecalibration) 0 None noon Hi)
    as [Hl [_ Hpending]].
  assert (Hmany : (1 < List.length
                         (inflight (step busy_world RequestRecalibration)))%nat)
    by (rewrite two_in_flight; lia).
  split; [exact Hmany|]. split; [exact Hl | exact (Hpending Hmany)].
Defined.

(** ** Requests and alerts *)

Lemma requests_accounted_step (w : World) (ev : Event) :
  requests_accounted w -> requests_accounted (step w ev).
Proof.
  intros [Hforms [Halerts Hcount]].
  assert (Hsame : forall w', inflight w' = inflight w ->
                             outbox w' = outbox w -> alerts w' = alerts w ->
                             requests_accounted w').
  { intros w' Hi Ho Ha. unfold requests_accounted.
    rewrite Hi, Ho, Ha. auto. }
  assert (Hland : forall i p r,
             nth_error (inflight w) i = Some p ->
             (snd r = None \/ snd r = Some "Analysis failed." \/
              snd r = Some "Refining failed.") ->
             requests_accounted (land i r w)).
  { intros i p r Hn Hr. unfold requests_accounted, land. simpl.
    assert (Hi : (i < List.length (inflight w))%nat)
      by (apply nth_error_Some; congruence).
    pose proof (length_remove_nth i (inflight w) Hi) as Hlen.
    split; [exact Hforms|].
    destruct Hr as [-> | [-> | ->]].
    - split; [exact Halerts | lia].
    - split; [apply Forall_app; split; [exact Halerts | repeat constructor]|].
      rewrite length_app. simpl. lia.
    - split; [apply Forall_app; split;
              [exact Halerts | constructor; [now right | constructor]]|].
      rewrite length_app. simpl. lia. }
  destruct ev as [f | c | t | n | | i outcome clk].
  - destruct f as [f|]; [|now apply Hsame].
    unfold requests_accounted. simpl. split; [|split; [exact Halerts|]].
    + apply Forall_app. split; [exact Hforms|].
      constructor; [|constructor]. left. now split.
    + rewrite !length_app. simpl. lia.
  - now apply Hsame.
  - now apply Hsame.
  - now apply Hsame.
  - destruct (refine_rejected (session w)) eqn:Hr.
    + apply Hsame; simpl; now rewrite (handleRefine_begin_rejected _ Hr).
    + destruct (handleRefine_begin_posts _ Hr) as [f [Hf Hb]].
      unfold refine_rejected in Hr. rewrite Hf in Hr.
      unfold requests_accounted. simpl. rewrite Hb. simpl.
      split; [|split; [exact Halerts|]].
      * apply Forall_app. split; [exact Hforms|].
        constructor; [|constructor]. right. unfold refine_form. simpl.
        destruct (selectedTarget (session w)) as [t|]; [|discriminate].
        exists t. split; [reflexivity|]. simpl in Hr.
        now apply String.eqb_neq.
      * rewrite !length_app. simpl. lia.
  - simpl. destruct (nth_error (inflight w) i) as [[|closure]|] eqn:Hn;
      [| |now apply Hsame].
    + apply (Hland i AwaitUpload _ Hn).
      destruct outcome as [[data|a|]|]; simpl; auto.
    + apply (Hland i (AwaitRefine closure) _ Hn).
      unfold handleRefine_settle.
      destruct outcome as [[data|a|]|]; [destruct (report closure)| | |];
        simpl; auto.
Qed.

(** X12: bookkeeping of the requests.  In every reachable state each
    form posted so far is either an upload form (no column, no target)
    or carries a target that is not the empty string; each alert shown
    is one of the two failure texts; and the alerts shown plus the
    requests still in flight never outnumber the forms posted: an alert
    is only ever the answer to a request, at most one per request. *)
Theorem requests_and_alerts_accounted (evs : list Event) :
  Forall (fun req => upload_form req \/ refine_form req) (outbox (run evs)) /\
  Forall (fun a => a = "Analysis failed." \/ a = "Refining failed.")
    (alerts (run evs)) /\
  (List.length (alerts (run evs)) + List.length (inflight (run evs))
   <= List.length (outbox (run evs)))%nat.
Proof.
  apply (run_world_invariant requests_accounted).
  - unfold requests_accounted. simpl. repeat split; constructor.
  - apply requests_accounted_step.
Qed.

(** ** The selection an upload installs *)

Lemma length_without_present (x : string) (arr : list string) :
  NoDup arr -> In x arr ->
  (List.length (without x arr) + 1 = List.length arr)%nat.
Proof.
  induction 1 as [|a arr Ha Hn IH]; intros Hx; [destruct Hx|].
  unfold without in *. simpl.
  destruct (String.eqb a x) eqn:Hax; simpl.
  - apply String.eqb_eq in Hax. subst a.
    fold (without x arr). rewrite includes_false_without; [lia|].
    destruct (includes x arr) eqn:Hi; [|reflexivity].
    now apply includes_iff in Hi.
  - apply String.eqb_neq in Hax. destruct Hx as [-> | Hx]; [congruence|].
    specialize (IH Hx). lia.
Qed.

(** X14: the selection installed by an upload whose response is
    complete.  With pairwise distinct column identifiers, a column is
    selected exactly when it is diagnosed and is not the target, each
    once and in the order of the diagnostics; so with the target among
    the identifiers one fewer column is selected than diagnosed, and
    with a target that is not among them every column is.  Hence a
    recalibration posted right away, with no column deselected, that
    improves the accuracy is logged as having pruned 1 vector: the
    target itself is counted. *)
Theorem upload_selects_all_but_target (data : Report) (clk : Clock)
  (s : Session) :
  unique_columns data ->
  let ids := map value (column_diagnostics (analysis data)) in
  let s' := fst (processFile_settle (Some data) clk s) in
  (forall c,
     In c (selectedCols s') <-> In c ids /\ c <> target_used (stats data)) /\
  NoDup (selectedCols s') /\
  (exists keep, selectedCols s' = filter keep ids) /\
  (In (target_used (stats data)) ids ->
   (List.length (selectedCols s') + 1 =
    List.length (column_diagnostics (analysis data)))%nat) /\
  (~ In (target_used (stats data)) ids -> selectedCols s' = ids) /\
  (forall data' clk' cur,
     In (target_used (stats data)) ids ->
     exists e,
       nth_error
         (insights (fst (handleRefine_settle s' (Some data') clk' cur))) 0
         = Some e /\
       (trend e = "OPTIMIZED" ->
        message e =
          "Optimization successful. Pruning 1 noisy vectors enhanced the focus on primary predictors.")).
Proof.
  intros Hu ids s'.
  assert (Hlen : In (target_used (stats data)) ids ->
                 (List.length (selectedCols s') + 1 =
                  List.length (column_diagnostics (analysis data)))%nat).
  { intros Hin. unfold s'. simpl.
    rewrite (length_without_present _ _ Hu Hin). apply length_map. }
  split; [intros c; apply without_iff|].
  split; [now apply NoDup_without|].
  split; [eexists; reflexivity|].
  split; [exact Hlen|]. split.
  - intros Hout. unfold s'. simpl. apply includes_false_without.
    destruct (includes (target_used (stats data))
                (map value (column_diagnostics (analysis data)))) eqn:Hi;
      [|exact Hi].
    now apply includes_iff in Hi.
  - intros data' clk' cur Hin.
    assert (Hr : report s' = Some data) by reflexivity.
    rewrite (handleRefine_settle_success _ _ _ _ _ Hr).
    cbn [fst insights setLoading setReport setInsights].
    rewrite firstn_cons. cbn [nth_error].
    eexists. split; [reflexivity|].
    unfold refine_entry, newEntry. cbn [trend message].
    replace (Z.of_nat (List.length (column_diagnostics (analysis data))) -
             Z.of_nat (List.length (selectedCols s')))%Z with 1%Z
      by (specialize (Hlen Hin); lia).
    destruct (positive_diff _); [reflexivity|].
    destruct (negative_diff _); discriminate.
Qed.

Lemma upload_selects_all_but_target_witness :
  let data := sample_report (JS.Str "82.0%") in
  let s' := fst (processFile_settle (Some data) noon initial) in
  (In "age" (selectedCols s') <->
   In "age" (map value (column_diagnostics (analysis data))) /\
   "age" <> target_used (stats data)) /\
  (List.length (selectedCols s') + 1 =
   List.length (column_diagnostics (analysis data)))%nat.
Proof.
  assert (Hu : unique_columns (sample_report (JS.Str "82.0%"))).
  { unfold unique_columns. simpl.
    repeat constructor; simpl; intuition discriminate. }
  destruct (upload_selects_all_but_target (sample_report (JS.Str "82.0%"))
              noon initial Hu) as [Hin [_ [_ [Hlen _]]]].
  split; [apply Hin|]. apply Hlen. simpl. auto.
Defined.

(** ** The rows of the log *)

Lemma known_trend_newEntry (prevAccuracy newAccuracy : JS.number)
  (totalColsCount activeColsCount : Z) (clk : Clock) :
  known_trend
    (trend (newEntry prevAccuracy newAccuracy totalColsCount activeColsCount
              clk)).
Proof.
  unfold known_trend, newEntry. cbn [trend].
  destruct (positive_diff _); [auto|].
  destruct (negative_diff _); auto.
Qed.

Lemma Forall_firstn_cons {A} (P : A -> Prop) (n : nat) (l : list A) :
  Forall P l -> Forall P (firstn n l).
Proof.
  intros H. rewrite Forall_forall in *. intros x Hx. apply H.
  rewrite <- (firstn_skipn n l). apply in_or_app. now left.
Qed.

Lemma known_trend_step (w : World) (ev : Event) :
  Forall (fun e => known_trend (trend e)) (insights (session w)) ->
  Forall (fun e => known_trend (trend e)) (insights (session (step w ev))).
Proof.
  intros Hw. step_cases w ev; try exact Hw.
  - destruct outcome as [[data|a|]|]; simpl; try exact Hw.
    + constructor; [|constructor]. right. now right.
    + now destruct (column_diagnostics a).
  - unfold handleRefine_settle.
    destruct outcome as [[data|a|]|]; try exact Hw.
    destruct (report closure); [|exact Hw].
    cbn [fst insights setLoading setReport setInsights].
    apply Forall_firstn_cons. constructor; [|exact Hw].
    apply known_trend_newEntry.
Qed.

(** X15: every entry of the log of a reachable state carries one of the
    three trends; so each row of the log panel shows exactly one icon,
    the one of its trend, in the colour of its trend, and the panel has
    as many rows as the log has entries. *)
Theorem log_rows_have_one_icon (evs : list Event) (e : Insight) :
  In e (insights (session (run evs))) ->
  ((trend e = "OPTIMIZED" /\ row_icons (logRow e) = [TrendingUp] /\
    row_color (logRow e) = "text-emerald-400") \/
   (trend e = "DEGRADED" /\ row_icons (logRow e) = [TrendingDown] /\
    row_color (logRow e) = "text-red-400") \/
   (trend e = "STABLE" /\ row_icons (logRow e) = [Minus] /\
    row_color (logRow e) = "text-zinc-400")) /\
  exists rows,
    CortexInsights (insights (session (run evs))) = LogRows rows /\
    List.length rows = List.length (insights (session (run evs))) /\
    In (logRow e) rows.
Proof.
  intros Hin. split.
  - assert (Hall : Forall (fun e => known_trend (trend e))
                     (insights (session (run evs)))).
    { apply (run_invariant
               (fun s => Forall (fun e => known_trend (trend e)) (insights s))).
      - constructor.
      - apply known_trend_step. }
    rewrite Forall_forall in Hall. specialize (Hall e Hin).
    unfold logRow. cbn [row_icons row_color].
    destruct Hall as [-> | [-> | ->]]; [left | right; left | right; right];
      repeat split.
  - destruct (insights (session (run evs))) as [|e0 log] eqn:Hlog;
      [destruct Hin|].
    exists (map logRow (e0 :: log)). split; [reflexivity|].
    split; [apply length_map | now apply in_map].
Qed.

Lemma log_rows_have_one_icon_witness :
  row_icons (logRow (baseline noon)) = [Minus].
Proof.
  destruct (log_rows_have_one_icon
              [UploadFile (Some "data.csv");
               Settle 0 (Some (sample_report (JS.Str "82.0%"))) noon]
              (baseline noon)) as [[H | [H | H]] _].
  - left. reflexivity.
  - destruct H as [H _]. discriminate H.
  - destruct H as [H _]. discriminate H.
  - destruct H as [_ [H _]]. exact H.
Defined.

(** ** The baseline *)

Lemma firstn_5_bound {A} (l : list A) : (List.length (firstn 5 l) <= 5)%nat.
Proof. rewrite length_firstn. lia. Qed.

(** Prepending an entry and cutting to five keeps the shape; the
    baseline is dropped exactly when four entries stood before it. *)
Lemma prepend_entry (entry : Insight) (entries tail : list Insight) :
  recalibration_entry entry ->
  Forall recalibration_entry entries ->
  (List.length (entries ++ tail) <= 5)%nat ->
  (tail = [] \/ exists clk, tail = [baseline clk]) ->
  exists entries',
    Forall recalibration_entry entries' /\
    ((firstn 5 (entry :: entries ++ tail) = (entries' ++ tail)%list /\
      entries' = entry :: entries /\
      (List.length (entries ++ tail) < 5)%nat) \/
     (firstn 5 (entry :: entries ++ tail) = entries' /\
      List.length entries' = 5%nat /\
      List.length (entries ++ tail) = 5%nat)).
Proof.
  intros He Hent Hlen Htail. rewrite length_app in *.
  destruct (Nat.eq_dec (List.length entries + List.length tail) 5)
    as [H5 | H5].
  - exists (firstn 5 (entry :: entries)). split.
    + apply Forall_firstn_cons. now constructor.
    + right. split; [|split; [|exact H5]].
      * destruct Htail as [-> | [clk ->]].
        -- now rewrite List.app_nil_r.
        -- simpl in H5.
           change (entry :: entries ++ [baseline clk])%list
             with ((entry :: entries) ++ [baseline clk])%list.
           rewrite firstn_app.
           replace (5 - List.length (entry :: entries))%nat with 0%nat
             by (cbn [List.length]; lia).
           cbn [firstn]. now rewrite List.app_nil_r.
      * rewrite length_firstn. cbn [List.length].
        destruct Htail as [-> | [clk ->]]; simpl in H5; lia.
  - exists (entry :: entries). split; [now constructor|].
    left. split; [|split; [reflexivity | lia]].
    apply firstn_all2.
    change (S (List.length (entries ++ tail)) <= 5)%nat.
    rewrite length_app. lia.
Qed.

Lemma entries_then_baseline_step (w : World) (ev : Event) :
  entries_then_baseline (insights (session w)) ->
  entries_then_baseline (insights (session (step w ev))).
Proof.
  intros Hw. step_cases w ev; try exact Hw.
  - destruct outcome as [[data|a|]|]; simpl; try exact Hw.
    + exists [], [baseline clk]. repeat split; simpl; try lia; [constructor|].
      right. now exists clk.
    + now destruct (column_diagnostics a).
  - unfold handleRefine_settle.
    destruct outcome as [[data|a|]|]; try exact Hw.
    destruct (report closure) as [r|]; [|exact Hw].
    cbn [fst insights setLoading setReport setInsights].
    set (entry := newEntry _ _ _ _ _).
    assert (He : recalibration_entry entry)
      by apply insight_trend_diff_suffix.
    destruct Hw as [entries [tail [Hlog [Hent [Hlen Htail]]]]].
    rewrite Hlog in *.
    destruct (prepend_entry entry entries tail He Hent Hlen Htail)
      as [entries' [Hent' [[Heq _] | [Heq _]]]].
    + exists entries', tail. rewrite Heq.
      split; [reflexivity|]. split; [exact Hent'|].
      split; [rewrite <- Heq; apply firstn_5_bound | exact Htail].
    + exists entries', []. rewrite Heq, List.app_nil_r.
      split; [reflexivity|]. split; [exact Hent'|].
      split; [rewrite <- Heq; apply firstn_5_bound | now left].
Qed.

Lemma log_shape_step (w : World) (ev : Event) :
  (forall i body clk,
     ev = Settle i (Resolved body) clk -> exists data, body = Complete data) ->
  log_shape w -> log_shape (step w ev).
Proof.
  intros Hcomplete [Hw [Hiff Hpend]].
  assert (Hkept : report (session w) <> None ->
                  report (session (step w ev)) <> None).
  { intros Hr. step_cases w ev; try exact Hr.
    - destruct outcome as [[data|a|]|]; simpl; try discriminate;
        try exact Hr.
      all: destruct (Hcomplete _ _ _ Hev) as [d Hd]; discriminate Hd.
    - unfold handleRefine_settle.
      destruct outcome as [[data|a|]|]; try exact Hr.
      destruct (report closure); simpl; [discriminate | exact Hr]. }
  assert (Hiff' : report (session (step w ev)) = None <->
                  insights (session (step w ev)) = []).
  { step_cases w ev; try exact Hiff.
    - destruct outcome as [[data|a|]|]; simpl; try exact Hiff.
      + split; discriminate.
      + destruct (Hcomplete _ _ _ Hev) as [d Hd]. discriminate Hd.
      + destruct (Hcomplete _ _ _ Hev) as [d Hd]. discriminate Hd.
    - unfold handleRefine_settle.
      destruct outcome as [[data|a|]|]; try exact Hiff.
      destruct (report closure); [|exact Hiff].
      cbn [fst insights report setLoading setReport setInsights].
      rewrite firstn_cons. split; discriminate. }
  assert (Hpend' : forall c, In (AwaitRefine c) (inflight (step w ev)) ->
                             report c <> None ->
                             report (session (step w ev)) <> None).
  { intros c Hc Hrc. apply Hkept.
    destruct ev as [f | c0 | t | n | | i outcome clk]; simpl in Hc.
    - destruct f; simpl in Hc; [|now apply (Hpend c)].
      apply in_app_or in Hc as [Hc | [Hc | []]];
        [now apply (Hpend c) | discriminate].
    - now apply (Hpend c).
    - now apply (Hpend c).
    - now apply (Hpend c).
    - destruct (handleRefine_begin (session w)) as [s1 [req|]];
        simpl in Hc; [|now apply (Hpend c)].
      apply in_app_or in Hc as [Hc | [Hc | []]]; [now apply (Hpend c)|].
      injection Hc as <-. exact Hrc.
    - destruct (nth_error (inflight w) i) as [[|closure]|];
        simpl in Hc; [| |now apply (Hpend c)];
        apply (Hpend c); trivial; now apply In_remove_nth in Hc. }
  split; [|split; [exact Hiff' | exact Hpend']].
  clear Hpend' Hiff' Hkept. step_cases w ev; try exact Hw.
  - destruct outcome as [[data|a|]|]; simpl; try exact Hw.
    + exists [], [baseline clk]. repeat split; simpl; try lia; [constructor|].
      left. now exists clk.
    + now destruct (column_diagnostics a).
  - unfold handleRefine_settle.
    destruct outcome as [[data|a|]|]; try exact Hw.
    destruct (report closure) as [r|] eqn:Hrc; [|exact Hw].
    assert (Hnonempty : insights (session w) <> []).
    { intros Hnil. apply Hiff in Hnil. revert Hnil.
      apply (Hpend closure); [|congruence].
      eapply nth_error_In. exact Hnth. }
    cbn [fst insights setLoading setReport setInsights].
    set (entry := newEntry _ _ _ _ _).
    assert (He : recalibration_entry entry)
      by apply insight_trend_diff_suffix.
    destruct Hw as [entries [tail [Hlog [Hent [Hlen Htail]]]]].
    rewrite Hlog in *.
    assert (Htail' : tail = [] \/ exists clk, tail = [baseline clk]).
    { destruct Htail as [Hb | [-> _]]; [now right | now left]. }
    destruct (prepend_entry entry entries tail He Hent Hlen Htail')
      as [entries' [Hent' [[Heq [-> Hlt]] | [Heq [H5 _]]]]].
    + exists (entry :: entries), tail. rewrite Heq.
      split; [reflexivity|]. split; [exact Hent'|].
      split; [rewrite <- Heq; apply firstn_5_bound|].
      destruct Htail as [Hb | [-> Hfull]]; [now left|].
      exfalso. rewrite List.app_nil_r in *.
      destruct Hfull as [-> | Hfull]; [now apply Hnonempty | lia].
    + exists entries', []. rewrite Heq, List.app_nil_r.
      split; [reflexivity|]. split; [exact Hent'|].
      split; [rewrite <- Heq; apply firstn_5_bound|].
      right. split; [reflexivity | now right].
Qed.

(** An upload whose response came without [stats], a target picked by
    hand, and a recalibration that succeeds: one entry, no baseline. *)
Lemma entry_without_baseline :
  let evs := [UploadFile (Some "data.csv");
              Settle 0
                (Resolved
                   (WithoutStats
                      (analysis (sample_report (JS.Str "82.0%"))))) noon;
              ChangeTarget "churn"; RequestRecalibration;
              Settle 0 (Some (sample_report (JS.Str "84.5%"))) noon] in
  List.length (insights (session (run_ui evs))) = 1%nat /\
  forall clk, ~ In (baseline clk) (insights (session (run_ui evs))).
Proof.
  split; [reflexivity|].
  intros clk [H | []]. apply (f_equal diff) in H. vm_compute in H.
  discriminate H.
Qed.

(** X16: the shape of the log, newest first.  In every reachable state
    the log is made of entries written by recalibrations, whose labels
    end with a percent sign, followed by at most one baseline, which is
    the oldest entry.  When every response that resolved was complete,
    the baseline is missing only from an empty log or from one that
    five recalibration entries fill, so that a log of one to four
    entries ends with the baseline.  Without that condition it need not:
    after an upload whose response came without [stats], a
    recalibration logs a single entry and no baseline, through the
    page. *)
Theorem log_ends_with_baseline (evs : list Event) :
  entries_then_baseline (insights (session (run evs))) /\
  (complete_responses evs ->
   baseline_last (insights (session (run evs))) /\
   ((0 < List.length (insights (session (run evs))) < 5)%nat ->
    exists clk,
      last (insights (session (run evs))) (baseline clk) = baseline clk /\
      In (baseline clk) (insights (session (run evs))))) /\
  (exists evs',
     List.length (insights (session (run_ui evs'))) = 1%nat /\
     forall clk, ~ In (baseline clk) (insights (session (run_ui evs')))).
Proof.
  split; [|split].
  - apply (run_invariant (fun s => entries_then_baseline (insights s))).
    + exists [], []. repeat split; simpl; try lia; [constructor | now left].
    + apply entries_then_baseline_step.
  - intros Hcomplete.
    assert (Hshape : log_shape (run evs)).
    { unfold run.
      assert (Hfrom : forall w, complete_responses evs -> log_shape w ->
                                log_shape (fold_left step evs w)).
      { clear Hcomplete.
        induction evs as [|ev evs IH]; intros w Hc Hw; simpl; [exact Hw|].
        apply IH.
        - intros i body clk Hin. apply (Hc i body clk). now right.
        - apply log_shape_step; [|exact Hw].
          intros i body clk ->. apply (Hc i body clk). now left. }
      apply Hfrom; [exact Hcomplete|].
      split; [|split].
      - exists [], []. repeat split; simpl; try lia; [constructor|].
        right. split; [reflexivity | now left].
      - split; reflexivity.
      - intros c []. }
    destruct Hshape as [Hshape _]. split; [exact Hshape|].
    intros Hlen.
    destruct Hshape as [entries [tail [Hlog [_ [_ Htail]]]]].
    rewrite Hlog in *.
    destruct Htail as [[clk ->] | [-> Hfull]].
    + exists clk. split; [apply last_last|].
      apply in_or_app. right. now left.
    + rewrite List.app_nil_r in Hlen.
      destruct Hfull as [-> | H5]; simpl in Hlen; lia.
  - eexists. exact entry_without_baseline.
Qed.

Lemma log_ends_with_baseline_witness :
  exists clk,
    last (insights (session ready_world)) (baseline clk) = baseline clk /\
    In (baseline clk) (insights (session ready_world)).
Proof.
  destruct (log_ends_with_baseline
              [UploadFile (Some "data.csv");
               Settle 0 (Some (sample_report (JS.Str "82.0%"))) noon])
    as [_ [H _]].
  apply H.
  - intros i body clk [Hin | [Hin | []]]; [discriminate|].
    injection Hin as _ <- _. now eexists.
  - simpl. lia.
Defined.

(** ** The pickers *)

(** X17: a click on a row of the feature picker flips the tick of that
    row, and of the rows sharing its identifier, and of no other row. *)
Theorem toggleColumn_flips_one_tick (c : string) (s : Session)
  (row : ColumnDiagnostic) :
  isActive (selectedCols (toggleColumn c s)) row =
  if String.eqb (value row) c then negb (isActive (selectedCols s) row)
  else isActive (selectedCols s) row.
Proof.
  unfold isActive. simpl.
  destruct (String.eqb (value row) c) eqn:Hrow.
  - apply String.eqb_eq in Hrow. rewrite Hrow.
    destruct (includes c (selectedCols s)) eqn:Hc; simpl.
    + apply includes_without_same.
    + apply includes_iff, in_or_app. right. now left.
  - apply String.eqb_neq in Hrow.
    apply Bool.eq_true_iff_eq. rewrite !includes_iff.
    destruct (includes c (selectedCols s)) eqn:Hc.
    + rewrite without_iff. tauto.
    + rewrite in_app_iff. simpl. intuition congruence.
Qed.

Lemma isSelected_absent (t : string) (ds : list ColumnDiagnostic) :
  ~ In t (map value ds) -> filter (isSelected (Some t)) ds = [].
Proof.
  induction ds as [|d ds IH]; intros Hd; [reflexivity|].
  cbn [filter isSelected]. simpl in Hd.
  destruct (String.eqb t (value d)) eqn:Ht.
  - apply String.eqb_eq in Ht. exfalso. apply Hd. left. now symmetry.
  - apply IH. tauto.
Qed.

Lemma isSelected_unique (t : option string) (ds : list ColumnDiagnostic) :
  NoDup (map value ds) -> (List.length (filter (isSelected t) ds) <= 1)%nat.
Proof.
  destruct t as [t|].
  - induction ds as [|d ds IH]; intros Hn; [simpl; lia|].
    inversion Hn as [|v vs Hd Hn' Heq]; subst.
    cbn [filter isSelected].
    destruct (String.eqb t (value d)) eqn:Ht; [|now apply IH].
    apply String.eqb_eq in Ht. subst t.
    rewrite (isSelected_absent _ _ Hd). simpl. lia.
  - intros _. induction ds as [|d ds IH]; simpl; [lia | exact IH].
Qed.

(** X18: the target picker.  After a target is picked, exactly the rows
    carrying that identifier are checked, the panel is closed, and in
    the feature picker the picked column is unticked while every other
    tick stays.  With pairwise distinct identifiers at most one row is
    checked, whatever the target.  The header shows the placeholder
    exactly when no target is set or the target is the empty string,
    the cases in which [handleRefine] drops the call, or when a column
    is itself named like the placeholder. *)
Theorem target_picker_shows_target (t : string) (s : Session)
  (row : ColumnDiagnostic) :
  isSelected (selectedTarget (handleTargetChange t s)) row =
    String.eqb t (value row) /\
  openDropdown (handleTargetChange t s) = None /\
  isActive (selectedCols (handleTargetChange t s)) row =
    isActive (selectedCols s) row && negb (String.eqb (value row) t) /\
  (forall tgt ds, NoDup (map value ds) ->
     (List.length (filter (isSelected tgt) ds) <= 1)%nat) /\
  (forall tgt,
     targetLabel tgt = "Select Target Column" <->
     no_target tgt = true \/ tgt = Some "Select Target Column").
Proof.
  split; [reflexivity|]. split; [reflexivity|]. split; [|split].
  - unfold isActive. simpl.
    apply Bool.eq_true_iff_eq.
    rewrite Bool.andb_true_iff, Bool.negb_true_iff, String.eqb_neq,
      !includes_iff, without_iff. reflexivity.
  - intros tgt ds. apply isSelected_unique.
  - intros tgt. unfold targetLabel.
    destruct (no_target tgt) eqn:Hn.
    + split; auto.
    + destruct tgt as [x|]; [|discriminate]. split.
      * intros ->. now right.
      * intros [H | H]; [discriminate | now injection H].
Qed.

(** *** Searching the feature picker *)

Lemma prefix_iff (p s : string) :
  String.prefix p s = true <-> exists post, s = p ++ post.
Proof.
  revert s. induction p as [|a p IH]; intros s.
  - split; [intros _; now exists s | intros _; now destruct s].
  - destruct s as [|b s]; cbn [String.prefix append].
    + split; [discriminate | intros [post H]; discriminate].
    + destruct (Ascii.ascii_dec a b) as [-> | Hab].
      * rewrite IH. split; intros [post H]; exists post.
        -- now rewrite H.
        -- now injection H.
      * split; [discriminate|]. intros [post H]. injection H as H _.
        congruence.
Qed.

Lemma string_includes_iff (needle haystack : string) :
  string_includes needle haystack = true <->
  exists pre post, haystack = pre ++ needle ++ post.
Proof.
  induction haystack as [|b h IH]; cbn [string_includes].
  - rewrite Bool.orb_false_r, prefix_iff. split.
    + intros [post H]. now exists EmptyString, post.
    + intros [pre [post H]]. destruct pre; [now exists post|discriminate].
  - rewrite Bool.orb_true_iff, prefix_iff, IH. split.
    + intros [[post H] | [pre [post H]]].
      * now exists EmptyString, post.
      * exists (String b pre), post. simpl. now rewrite H.
    + intros [pre [post H]]. destruct pre as [|a pre]; simpl in H.
      * left. now exists post.
      * right. exists pre, post. now injection H.
Qed.

Lemma append_empty_r (s : string) : s ++ EmptyString = s.
Proof. induction s; simpl; congruence. Qed.

(** X19: the rows the feature picker lists for a search text, for
    whatever [toLowerCase] computes.  Without diagnostics nothing is
    listed; otherwise a diagnosed column is listed exactly when the
    search text, in lower case, occurs somewhere in its label, in lower
    case; the rows keep the order of the diagnostics; the full label of
    a column always finds it; and, lower case of the empty text being
    empty, an empty search box lists every column. *)
Theorem displayList_lists_matches (toLowerCase : string -> string)
  (ds : list ColumnDiagnostic) (search : string) :
  displayList toLowerCase None search = [] /\
  (forall c,
     In c (displayList toLowerCase (Some ds) search) <->
     In c ds /\
     exists pre post,
       toLowerCase (label c) = pre ++ toLowerCase search ++ post) /\
  (exists keep,
     displayList toLowerCase (Some ds) search = filter keep ds) /\
  (forall c, In c ds ->
     In c (displayList toLowerCase (Some ds) (label c))) /\
  (toLowerCase EmptyString = EmptyString ->
   displayList toLowerCase (Some ds) EmptyString = ds).
Proof.
  split; [reflexivity|]. split; [|split; [|split]].
  - intros c. unfold displayList. rewrite filter_In, string_includes_iff.
    reflexivity.
  - eexists. reflexivity.
  - intros c Hc. unfold displayList. apply filter_In. split; [exact Hc|].
    apply string_includes_iff. exists EmptyString, EmptyString.
    simpl. now rewrite append_empty_r.
  - intros Hempty. unfold displayList. rewrite Hempty.
    induction ds as [|d ds IH]; simpl; [reflexivity|].
    replace (string_includes EmptyString (toLowerCase (label d))) with true
      by (now destruct (toLowerCase (label d))).
    now rewrite IH.
Qed.

Lemma displayList_lists_matches_witness :
  displayList lower_ascii (Some [col "Age"; col "Plan"; col "Churn"])
    EmptyString = [col "Age"; col "Plan"; col "Churn"].
Proof.
  apply (displayList_lists_matches lower_ascii
           [col "Age"; col "Plan"; col "Churn"] EmptyString).
  reflexivity.
Defined.

(** ** The cards *)

(** X20: what the precision card shows.  An accuracy that is missing or
    falsy (undefined, null, the number zero, NaN, the empty string) is
    shown as "N/A"; a non-empty string as it is; a number that is not
    above 1 as a percentage with one decimal, the number 1 itself as
    "100.0%"; a number above 1 as it is.  So the card never shows
    undefined, null, nor a bare number that is at most 1.  The zero that
    the card turns into "N/A" would be shown as "0.0%" by [StatCard]
    itself: it is the default that hides it. *)
Theorem precisionCard_shows (r : option Report) :
  (JS.truthy (accuracy_of r) = false -> precisionCard r = JS.Str "N/A") /\
  (forall s, accuracy_of r = JS.Str s -> s <> EmptyString ->
     precisionCard r = JS.Str s) /\
  (forall x, accuracy_of r = JS.Num x -> JS.truthy (JS.Num x) = true ->
     precisionCard r =
       if js_leb x one then JS.Str (JS.toFixed1 (js_mul x hundred) ++ "%")
       else JS.Num x) /\
  ((exists s, precisionCard r = JS.Str s) \/
   (exists x, precisionCard r = JS.Num x /\ js_leb x one = false)) /\
  StatCard (JS.Num one) = JS.Str "100.0%" /\
  StatCard (JS.Num JS.zero) = JS.Str "0.0%".
Proof.
  unfold precisionCard, JS.or_else.
  split; [|split; [|split; [|split; [|split]]]].
  - intros ->. reflexivity.
  - intros s -> Hs. simpl. apply String.eqb_neq in Hs. now rewrite Hs.
  - intros x -> Hx. rewrite Hx. reflexivity.
  - destruct (JS.truthy (accuracy_of r)) eqn:Ht; [|left; now eexists].
    destruct (accuracy_of r) as [| | x | s]; try discriminate.
    + simpl. destruct (js_leb x one) eqn:Hle; [left; now eexists|].
      right. now exists x.
    + left. now eexists.
  - vm_compute. reflexivity.
  - vm_compute. reflexivity.
Qed.

Lemma precisionCard_shows_witness :
  precisionCard (Some (sample_report (JS.Num JS.zero))) = JS.Str "N/A" /\
  precisionCard (Some (sample_report (JS.Str "82.0%"))) = JS.Str "82.0%" /\
  precisionCard (Some (sample_report (JS.Num (JS.of_decimal false 5 (-1)))))
    = JS.Str "50.0%".
Proof.
  split; [|split].
  - destruct (precisionCard_shows (Some (sample_report (JS.Num JS.zero))))
      as [H _].
    apply H. reflexivity.
  - destruct (precisionCard_shows (Some (sample_report (JS.Str "82.0%"))))
      as [_ [H _]].
    apply (H "82.0%"); [reflexivity | discriminate].
  - destruct (precisionCard_shows
                (Some (sample_report (JS.Num (JS.of_decimal false 5 (-1))))))
      as [_ [_ [H _]]].
    apply (H (JS.of_decimal false 5 (-1))); reflexivity.
Defined.

(** ** The chart labels *)

Lemma surrogate_halves_differ (u : N) :
  high_surrogate u = true -> low_surrogate u = false.
Proof.
  unfold high_surrogate, low_surrogate. intros H.
  apply Bool.andb_true_iff in H as [_ H]. apply N.leb_le in H.
  apply Bool.andb_false_iff. left. apply N.leb_gt. lia.
Qed.

(** A first half that is not followed by a second half makes the text
    ill-formed, wherever it stands. *)
Lemma lone_high_surrogate (s : utf16) :
  forall k u v,
    nth_error s k = Some u -> high_surrogate u = true ->
    nth_error s (S k) = Some v -> low_surrogate v = false ->
    well_formed s = false.
Proof.
  assert (Hn : forall n (s : utf16), (List.length s <= n)%nat ->
               forall k u v,
                 nth_error s k = Some u -> high_surrogate u = true ->
                 nth_error s (S k) = Some v -> low_surrogate v = false ->
                 well_formed s = false).
  { induction n as [|n IH]; intros s0 Hlen k u v Hu Hhigh Hv Hlow.
    - destruct s0; [now destruct k | simpl in Hlen; lia].
    - destruct s0 as [|a rest]; [now destruct k|].
      simpl in Hlen. cbn [well_formed].
      destruct (high_surrogate a) eqn:Ha.
      + destruct rest as [|b rest']; [reflexivity|].
        destruct (low_surrogate b) eqn:Hb; [|reflexivity].
        cbn [andb]. destruct k as [|[|k]].
        * simpl in Hu, Hv. injection Hv as <-. congruence.
        * simpl in Hu. injection Hu as <-.
          rewrite (surrogate_halves_differ _ Hhigh) in Hb. discriminate.
        * apply (IH rest' ltac:(simpl in Hlen; lia) k u v); assumption.
      + destruct k as [|k].
        * simpl in Hu. injection Hu as <-. congruence.
        * rewrite (IH rest ltac:(lia) k u v); try assumption.
          apply Bool.andb_false_r. }
  intros k u v. now apply (Hn (List.length s) s).
Qed.

(** X21: the name under a bar of the anomaly chart, counted as the code
    counts it, in UTF-16 code units.  It never has more than ten units;
    it is the column name itself exactly when that has at most ten; a
    longer name is cut to its first eight units followed by two dots.
    Hence two long names that agree on their first eight units get the
    same label, and a surrogate pair that straddles the cut is split:
    the label is then not well-formed, ending with the first half of
    the pair and the dots. *)
Theorem shortName_fits (name : utf16) :
  (List.length (shortName name) <= 10)%nat /\
  (shortName name = name <-> (List.length name <= 10)%nat) /\
  ((10 < List.length name)%nat ->
   List.length (shortName name) = 10%nat /\
   shortName name = (firstn 8 name ++ units "..")%list /\
   firstn 8 (shortName name) = firstn 8 name) /\
  (forall other,
     (10 < List.length name)%nat -> (10 < List.length other)%nat ->
     firstn 8 name = firstn 8 other ->
     shortName name = shortName other) /\
  (forall u,
     (10 < List.length name)%nat ->
     nth_error name 7 = Some u -> high_surrogate u = true ->
     well_formed (shortName name) = false).
Proof.
  unfold shortName.
  assert (Hlong : (10 < List.length name)%nat ->
                  List.length (firstn 8 name ++ units "..")%list = 10%nat).
  { intros H. rewrite length_app, length_firstn.
    change (List.length (units "..")) with 2%nat. lia. }
  assert (Hhead : (10 < List.length name)%nat ->
                  List.length (firstn 8 name) = 8%nat).
  { intros H. rewrite length_firstn. lia. }
  split; [|split; [|split; [|split]]].
  - destruct (10 <? List.length name)%nat eqn:Hl.
    + apply Nat.ltb_lt in Hl. rewrite (Hlong Hl). lia.
    + apply Nat.ltb_ge in Hl. exact Hl.
  - destruct (10 <? List.length name)%nat eqn:Hl.
    + apply Nat.ltb_lt in Hl. split; [|lia].
      intros Heq. apply (f_equal (@List.length N)) in Heq.
      rewrite (Hlong Hl) in Heq. lia.
    + apply Nat.ltb_ge in Hl. tauto.
  - intros Hl. pose proof Hl as Hb. apply Nat.ltb_lt in Hb. rewrite Hb.
    split; [now apply Hlong|]. split; [reflexivity|].
    rewrite firstn_app, (Hhead Hl), Nat.sub_diag, firstn_O, List.app_nil_r.
    now rewrite firstn_firstn.
  - intros other Hl Ho Heq.
    apply Nat.ltb_lt in Hl, Ho. now rewrite Hl, Ho, Heq.
  - intros u Hl Hu Hhigh. pose proof Hl as Hb. apply Nat.ltb_lt in Hb.
    rewrite Hb.
    apply (lone_high_surrogate _ 7 u 46%N).
    + rewrite nth_error_app1 by (rewrite (Hhead Hl); lia).
      rewrite nth_error_firstn. exact Hu.
    + exact Hhigh.
    + rewrite nth_error_app2 by (rewrite (Hhead Hl); lia).
      rewrite (Hhead Hl). reflexivity.
    + reflexivity.
Qed.

Lemma shortName_fits_witness :
  List.length (shortName (units "monthly_charges")) = 10%nat /\
  shortName (units "monthly_charges") = units "monthly_.." /\
  shortName (units "monthly_charges") = shortName (units "monthly_revenue") /\
  well_formed astral_name = true /\
  well_formed (shortName astral_name) = false.
Proof.
  destruct (shortName_fits (units "monthly_charges"))
    as [_ [_ [Hcut [Hsame _]]]].
  assert (Hl : (10 < List.length (units "monthly_charges"))%nat)
    by (simpl; lia).
  destruct (Hcut Hl) as [Hlen [Heq _]].
  split; [exact Hlen|]. split; [rewrite Heq; reflexivity|].
  split; [apply Hsame; [exact Hl | simpl; lia | reflexivity]|].
  split; [reflexivity|].
  destruct (shortName_fits astral_name) as [_ [_ [_ [_ Hsplit]]]].
  apply (Hsplit 55357%N); [simpl; lia | reflexivity | reflexivity].
Defined.

(** ** The preview table *)

Lemma own_absent (row : Row) (c : string) :
  ~ In c (map fst row) -> own row c = None.
Proof.
  induction row as [|[k v] row IH]; simpl; [reflexivity|].
  intros Hc. destruct (String.eqb k c) eqn:Hk.
  - apply String.eqb_eq in Hk. tauto.
  - apply IH. tauto.
Qed.

Lemma own_present (row : Row) (c : string) :
  In c (map fst row) -> exists v, own row c = Some v.
Proof.
  induction row as [|[k v] row IH]; simpl; [intros []|].
  intros Hc. destruct (String.eqb k c) eqn:Hk; [now exists v|].
  apply String.eqb_neq in Hk. destruct Hc as [Hc | Hc]; [congruence|].
  now apply IH.
Qed.

(** X22: the preview table.  Nothing is rendered exactly when the rows
    are missing or empty.  Otherwise the keys of the first row head the
    columns, there is one line per row, and every line has one cell per
    heading whatever keys its own row has, so a key that only a later
    row carries is never shown.  Under a heading a row lacks, the cell
    is a dash, unless the heading names a member of [Object.prototype]
    ("constructor", "toString", ...): then the row inherits a value and
    the cell shows it.  A cell is a dash exactly for a missing,
    undefined or null field and for the empty string; the number zero
    is shown. *)
Theorem DataTable_is_rectangular (rows : option (list Row)) :
  (DataTable rows = None <-> rows = None \/ rows = Some []) /\
  (forall first rest, rows = Some (first :: rest) ->
     exists t,
       DataTable rows = Some t /\
       header t = map fst first /\
       List.length (body t) = S (List.length rest) /\
       Forall (fun line => List.length line = List.length (header t))
         (body t) /\
       (forall i j row c,
          nth_error (first :: rest) i = Some row ->
          nth_error (header t) j = Some c ->
          exists line, nth_error (body t) i = Some line /\
                       nth_error line j = Some (cell row c))) /\
  (forall row c,
     cell row c = Dash <->
     field row c = Missing \/ field row c = Own JS.Undefined \/
     field row c = Own JS.Null \/ field row c = Own (JS.Str EmptyString)) /\
  (forall row c,
     ~ In c (map fst row) ->
     cell row c = if inherited c then ShownInherited c else Dash) /\
  (forall row c,
     In c (map fst row) -> exists v, field row c = Own v) /\
  (forall row c,
     field row c = Own (JS.Num JS.zero) -> cell row c = Shown (JS.Num JS.zero)).
Proof.
  split; [|split; [|split; [|split; [|split]]]].
  - destruct rows as [[|first rest]|]; simpl; split; auto;
      try discriminate; intros [H | H]; discriminate.
  - intros first rest ->. eexists. split; [reflexivity|].
    cbn [header body]. split; [reflexivity|].
    split; [now rewrite length_map|]. split.
    + apply Forall_forall. intros line Hl.
      apply in_map_iff in Hl as [row [<- _]]. now rewrite !length_map.
    + intros i j row c Hi Hj.
      exists (map (cell row) (map fst first)). split.
      * rewrite nth_error_map, Hi. reflexivity.
      * rewrite nth_error_map, Hj. reflexivity.
  - intros row c. unfold cell.
    destruct (field row c) as [[| | x | s] | name |]; split; auto;
      try discriminate;
      try (intros [H | [H | [H | H]]]; discriminate).
    + destruct (String.eqb s EmptyString) eqn:Hs; [|discriminate].
      apply String.eqb_eq in Hs. subst. auto.
    + intros [H | [H | [H | H]]]; try discriminate.
      injection H as ->. reflexivity.
  - intros row c Hc. unfold cell, field. rewrite (own_absent row c Hc).
    now destruct (inherited c).
  - intros row c Hc. unfold field.
    destruct (own_present row c Hc) as [v ->]. now exists v.
  - intros row c H. unfold cell. now rewrite H.
Qed.

Lemma DataTable_is_rectangular_witness :
  exists t,
    DataTable (Some [[("age", JS.Num JS.zero); ("constructor", JS.Str "x")];
                     [("age", JS.Null); ("city", JS.Str "Pune")]])
      = Some t /\
    header t = ["age"; "constructor"] /\
    body t = [[Shown (JS.Num JS.zero); Shown (JS.Str "x")];
              [Dash; ShownInherited "constructor"]].
Proof.
  destruct (DataTable_is_rectangular
              (Some [[("age", JS.Num JS.zero); ("constructor", JS.Str "x")];
                     [("age", JS.Null); ("city", JS.Str "Pune")]]))
    as [_ [H _]].
  destruct (H [("age", JS.Num JS.zero); ("constructor", JS.Str "x")]
              [[("age", JS.Null); ("city", JS.Str "Pune")]] eq_refl)
    as [t [Ht [Hh _]]].
  exists t. split; [exact Ht|]. split; [exact Hh|].
  injection Ht as <-. reflexivity.
Defined.
